(** * llm_services: the history buffer and the translator, verified

    A shallow embedding of [utils/history_buffer.py] and [translator.py].

    Conventions of the model.
    - A Python [str] is a Rocq [string] holding its UTF-8 bytes.  Concatenation,
      [in], [split] and [join] act on the bytes exactly as they act on the code
      points, because UTF-8 is self-synchronising.  An unpaired surrogate, which
      a [str] can hold and UTF-8 cannot, is the three bytes that the scheme of
      UTF-8 would give it; no well-formed text holds them.
    - A Python [int] is a [Z]; a [bool] is an [int] in Python and is read as
      [PInt 0] or [PInt 1].
    - An exception is an [exn]; a call either returns a value or raises, and in
      both cases hands back the object and the file system as it left them.
    - The file system maps a path to the bytes of a file; paths are those of
      POSIX and are told apart by their spelling.  Directories are not kept:
      a directory that cannot be used is a file of the map that can be neither
      read nor written.  Text is written as UTF-8 and read back as UTF-8 with
      the newline translation of text mode.
    - The chat model answers the messages it is sent with the content of its
      reply, of any type, or raises. *)

From Stdlib Require Import ZArith List Ascii String Bool Lia.
From stdpp Require Import base option gmap strings.

Local Open Scope Z_scope.

(** ** Python values, exceptions and outcomes *)

Inductive pyval : Type :=
| PNone
| PInt (z : Z)
| PStr (s : string)
| PObj.

(** [UnicodeEncodeError] is a [ValueError] in Python and is kept apart here;
    [OtherError] is any other exception, by the name of its class. *)
Inductive exn : Type :=
| TypeError
| ValueError
| OSError
| UnicodeEncodeError
| OtherError (name : string).

Inductive outcome (A : Type) : Type :=
| Return (a : A)
| Raise (e : exn).
Arguments Return {A} a.
Arguments Raise {A} e.

(** ** The file system *)

Record File : Type := mkFile {
  contents : string;
  readable : bool;
  writable : bool
}.

Abbreviation FileSystem := (gmap string File).

(** A method of an object of state [S]: it runs against the object and the
    file system, and returns or raises. *)
Definition M (S A : Type) : Type := S -> FileSystem -> outcome A * S * FileSystem.

Definition ret {S A : Type} (a : A) : M S A := fun self fs => (Return a, self, fs).

Definition raise {S A : Type} (e : exn) : M S A := fun self fs => (Raise e, self, fs).

Definition bind {S A B : Type} (m : M S A) (k : A -> M S B) : M S B :=
  fun self fs =>
    match m self fs with
    | (Return a, self', fs') => k a self' fs'
    | (Raise e, self', fs') => (Raise e, self', fs')
    end.

Global Instance M_ret (S : Type) : MRet (M S) := fun A => @ret S A.
Global Instance M_bind (S : Type) : MBind (M S) := fun A B k m => bind m k.

Definition get_self {S : Type} : M S S := fun self fs => (Return self, self, fs).
Definition set_self {S : Type} (s : S) : M S unit := fun _ fs => (Return tt, s, fs).
Definition get_fs {S : Type} : M S FileSystem := fun self fs => (Return fs, self, fs).
Definition set_fs {S : Type} (fs : FileSystem) : M S unit := fun self _ => (Return tt, self, fs).

(** Run a method of a field of the object, as [self.field.method(...)] does. *)
Definition on_field {T S A : Type} (proj : T -> S) (upd : S -> T -> T) (m : M S A) : M T A :=
  fun self fs =>
    let '(r, s', fs') := m (proj self) fs in (r, upd s' self, fs').

(** ** Strings *)

Module Str.

(** [sep in s] *)
Fixpoint contains (sep s : string) : bool :=
  String.prefix sep s ||
  match s with
  | EmptyString => false
  | String _ r => contains sep r
  end.

Definition cons_first (c : ascii) (segs : list string) : list string :=
  match segs with
  | [] => [String c EmptyString]
  | seg :: rest => String c seg :: rest
  end.

(** The segments of [s] between the occurrences of [sep], found from the left
    and never overlapping; [skip] counts the characters of the occurrence
    being stepped over. *)
Fixpoint split_go (sep : string) (skip : nat) (s : string) : list string :=
  match s with
  | EmptyString => [EmptyString]
  | String c r =>
      match skip with
      | S k => split_go sep k r
      | O =>
          if String.prefix sep s
          then EmptyString :: split_go sep (String.length sep - 1) r
          else cons_first c (split_go sep O r)
      end
  end.

(** [s.split(sep)]: an empty separator is a [ValueError]. *)
Definition split (sep s : string) : option (list string) :=
  match sep with
  | EmptyString => None
  | _ => Some (split_go sep O s)
  end.

(** [sep.join(l)] *)
Definition join (sep : string) (l : list string) : string := String.concat sep l.

Fixpoint drop (n : nat) (s : string) : string :=
  match n, s with
  | O, _ => s
  | S k, EmptyString => EmptyString
  | S k, String _ r => drop k r
  end.

(** A separator no proper suffix of which is a prefix of it: two of its
    occurrences never overlap. *)
Definition unbordered (sep : string) : bool :=
  forallb (fun k => negb (String.prefix (drop k sep) sep))
          (seq 1 (String.length sep - 1)).

End Str.

(** ** Lists *)

(** [l[k:]] for an integer [k] of either sign. *)
Definition slice_from {A : Type} (k : Z) (l : list A) : list A :=
  let len := Z.of_nat (length l) in
  let start := if k <? 0 then Z.max (len + k) 0 else Z.min k len in
  skipn (Z.to_nat start) l.

(** The last [n] elements of [l], all of [l] when it has fewer. *)
Definition last_n {A : Type} (n : nat) (l : list A) : list A :=
  skipn (length l - n) l.

(** ** The text layer: UTF-8 and newlines *)

Module Text.

Definition byte_in (lo hi : N) (c : ascii) : bool :=
  N.leb lo (N_of_ascii c) && N.leb (N_of_ascii c) hi.

(** A continuation byte. *)
Definition cont (c : ascii) : bool := byte_in 128 191 c.

(** The number of bytes of the well-formed UTF-8 character that [s] starts
    with, 0 when it starts with none.  Surrogates, overlong forms and what
    lies above U+10FFFF are not well formed. *)
Definition char_len (s : string) : nat :=
  match s with
  | String a r =>
      if byte_in 0 127 a then 1%nat
      else match r with
           | String b r' =>
               if byte_in 194 223 a && cont b then 2%nat
               else match r' with
                    | String c r'' =>
                        if (byte_in 224 224 a && byte_in 160 191 b
                            || byte_in 225 236 a && cont b
                            || byte_in 237 237 a && byte_in 128 159 b
                            || byte_in 238 239 a && cont b) && cont c
                        then 3%nat
                        else match r'' with
                             | String d _ =>
                                 if (byte_in 240 240 a && byte_in 144 191 b
                                     || byte_in 241 243 a && cont b
                                     || byte_in 244 244 a && byte_in 128 143 b)
                                    && cont c && cont d
                                 then 4%nat
                                 else 0%nat
                             | EmptyString => 0%nat
                             end
                    | EmptyString => 0%nat
                    end
           | EmptyString => 0%nat
           end
  | EmptyString => 0%nat
  end.

(** [skip] counts the bytes left of the character being stepped over. *)
Fixpoint valid_go (skip : nat) (s : string) : bool :=
  match s with
  | EmptyString => match skip with O => true | S _ => false end
  | String _ r =>
      match skip with
      | S k => valid_go k r
      | O =>
          match char_len s with
          | O => false
          | S k => valid_go k r
          end
      end
  end.

(** The text can be encoded to UTF-8, and the bytes can be decoded from it:
    a [str] with a surrogate fails the first, bytes that are not UTF-8 the
    second. *)
Definition utf8_valid (s : string) : bool := valid_go 0 s.

Definition cr : ascii := "013"%char.
Definition lf : ascii := "010"%char.

(** The newline translation of a file read in text mode: a carriage return
    becomes a newline, and the newline that follows it is dropped.
    [after_cr] tells that the character before was a carriage return. *)
Fixpoint newlines_go (after_cr : bool) (s : string) : string :=
  match s with
  | EmptyString => EmptyString
  | String c r =>
      if Ascii.eqb c cr then String lf (newlines_go true r)
      else if Ascii.eqb c lf && after_cr then newlines_go false r
      else String c (newlines_go false r)
  end.

Definition universal_newlines (s : string) : string := newlines_go false s.

End Text.

(** ** Paths and files *)

Definition slash : ascii := "/"%char.

(** [p[:p.rfind('/') + 1]] *)
Fixpoint upto_last_slash (p : string) : string :=
  match p with
  | EmptyString => EmptyString
  | String c r =>
      match upto_last_slash r with
      | EmptyString => if Ascii.eqb c slash then String c EmptyString else EmptyString
      | h => String c h
      end
  end.

Fixpoint all_slashes (s : string) : bool :=
  match s with
  | EmptyString => true
  | String c r => Ascii.eqb c slash && all_slashes r
  end.

(** [s.rstrip('/')] *)
Fixpoint rstrip_slashes (s : string) : string :=
  match s with
  | EmptyString => EmptyString
  | String c r => if all_slashes s then EmptyString else String c (rstrip_slashes r)
  end.

(** [os.path.dirname] of posixpath. *)
Definition dirname (p : string) : string :=
  let head := upto_last_slash p in
  if negb (String.eqb head EmptyString) && negb (all_slashes head)
  then rstrip_slashes head
  else head.

Definition nul : ascii := "000"%char.

(** The path holds a NUL character, which no call of the system accepts. *)
Definition has_nul (p : string) : bool := Str.contains (String nul EmptyString) p.

(** [p[p.rfind('/') + 1:]], the last component of a path. *)
Fixpoint basename (p : string) : string :=
  match p with
  | EmptyString => EmptyString
  | String c r =>
      if Str.contains (String slash EmptyString) r then basename r
      else if Ascii.eqb c slash then r
      else p
  end.

(** The path is spelled as a directory: it ends with a slash, a dot
    component or a dot-dot component. *)
Definition names_directory (p : string) : bool :=
  String.eqb (basename p) EmptyString
  || String.eqb (basename p) "."
  || String.eqb (basename p) "..".

(** The prefixes of [s] that a slash follows, without the empty one;
    [pre] is what has been read. *)
Fixpoint dir_prefixes_go (pre s : string) : list string :=
  match s with
  | EmptyString => []
  | String c r =>
      (if Ascii.eqb c slash && negb (String.eqb pre EmptyString) then [pre] else [])
      ++ dir_prefixes_go (pre +:+ String c EmptyString) r
  end.

(** A file stands where the directory [d], or a directory above it, is to
    be. *)
Definition blocked (fs : FileSystem) (d : string) : bool :=
  existsb (fun q => bool_decide (is_Some (fs !! q)))
          (dir_prefixes_go EmptyString (d +:+ String slash EmptyString)).

(** Files stand below [p], which makes [p] a directory. *)
Definition is_dir (fs : FileSystem) (p : string) : bool :=
  existsb (fun kv => String.prefix (p +:+ String slash EmptyString) (fst kv))
          (map_to_list fs).

(** What stops [os.makedirs] on its way down the directories [ps], the
    outermost first: [mkdir] raises [ValueError] for a name with a NUL,
    [NotADirectoryError] below a file and [FileExistsError] on a file. *)
Fixpoint makedirs_stop (fs : FileSystem) (ps : list string) : option exn :=
  match ps with
  | [] => None
  | p :: rest =>
      if has_nul p then Some ValueError
      else if bool_decide (is_Some (fs !! p))
           then match rest with
                | q :: _ => if has_nul q then Some ValueError else Some OSError
                | [] => Some OSError
                end
           else makedirs_stop fs rest
  end.

(** [os.makedirs(d, exist_ok=True)]: the empty name is no directory and
    raises [FileNotFoundError]; the directories that are missing are made,
    which the file system, a map of files, does not record. *)
Definition makedirs {S : Type} (d : string) : M S unit :=
  fs ← get_fs;
  match d with
  | EmptyString => raise OSError
  | _ =>
      match makedirs_stop fs (dir_prefixes_go EmptyString (d +:+ String slash EmptyString)) with
      | Some e => raise e
      | None => ret tt
      end
  end.

(** [open(path, 'r', encoding='utf-8').read()]: [None] when the file is
    missing, cannot be read, or holds bytes that are not UTF-8; otherwise
    its text, newlines translated. *)
Definition read_text (path : string) (fs : FileSystem) : option string :=
  match fs !! path with
  | Some f =>
      if readable f && Text.utf8_valid (contents f)
      then Some (Text.universal_newlines (contents f))
      else None
  | None => None
  end.

(** [open(path, 'a', encoding='utf-8')]: creates a missing file, and fails
    on a path with a NUL, below a file, on a directory, and on a file that
    cannot be written. *)
Definition open_append {S : Type} (path : string) : M S unit :=
  fs ← get_fs;
  if has_nul path then raise ValueError
  else if blocked fs (dirname path) || names_directory path || is_dir fs path
  then raise OSError
  else
    match fs !! path with
    | None => set_fs (<[path := mkFile EmptyString true true]> fs)
    | Some f => if writable f then ret tt else raise OSError
    end.

(** [file.write(text)] on a file opened for appending: text that cannot be
    encoded raises, after what was written before it. *)
Definition write {S : Type} (path text : string) : M S unit :=
  fs ← get_fs;
  match fs !! path with
  | None => raise OSError
  | Some f =>
      if Text.utf8_valid text
      then set_fs (<[path := mkFile (contents f +:+ text) (readable f) (writable f)]> fs)
      else raise UnicodeEncodeError
  end.

(** ** HistoryBuffer *)

Definition newline : ascii := "010"%char.

Definition default_delimiter : string := String newline "____I_LOVE_YOU_HUYEN____".

(** The default of [buffer_size], and of the [preceding_context_length] of
    the translator. *)
Definition default_buffer_size : Z := 10.

Record HistoryBuffer : Type := mkHistoryBuffer {
  _file_path : option string;
  _delimiter : string;
  _buffer_size : Z;
  _buffer : list string
}.

Definition set_buffer (b : list string) (self : HistoryBuffer) : HistoryBuffer :=
  mkHistoryBuffer (_file_path self) (_delimiter self) (_buffer_size self) b.

Module HistoryBuffer.

(** [__read_file]: every failure inside the [try] gives the empty list. *)
Definition read_file (self : HistoryBuffer) (fs : FileSystem) : list string :=
  match _file_path self with
  | None => []
  | Some path =>
      match read_text path fs with
      | None => []
      | Some content =>
          match Str.split (_delimiter self) content with
          | None => []
          | Some entries => slice_from 1 entries
          end
      end
  end.

(** [__flush_to_file] *)
Definition flush_to_file (content : string) : M HistoryBuffer unit :=
  self ← get_self;
  match _file_path self with
  | None => raise TypeError
  | Some path =>
      makedirs (dirname path);;
      open_append path;;
      write path (_delimiter self);;
      write path content
  end.

(** [__init__]; it reads the file system and leaves it as it is. *)
Definition init (buffer_size file_path delimiter : pyval) (fs : FileSystem)
  : outcome HistoryBuffer :=
  match buffer_size with
  | PInt size =>
      if size <? 0 then Raise TypeError else
      match file_path with
      | PObj | PInt _ => Raise ValueError
      | _ =>
          match delimiter with
          | PStr delim =>
              if (String.length delim <? 1)%nat then Raise ValueError else
              let path := match file_path with PStr p => Some p | _ => None end in
              let self := mkHistoryBuffer path delim size [] in
              match path with
              | Some (String _ _) =>
                  if 0 <? size
                  then Return (set_buffer (slice_from (- size) (read_file self fs)) self)
                  else Return self
              | _ => Return self
              end
          | _ => Raise ValueError
          end
      end
  | _ => Raise TypeError
  end.

(** [push] *)
Definition push (content : pyval) : M HistoryBuffer unit :=
  match content with
  | PStr content =>
      self ← get_self;
      (if 0 <? _buffer_size self
       then set_self (set_buffer
                        (slice_from (- _buffer_size self) (_buffer self ++ [content]))
                        self)
       else ret tt);;
      self ← get_self;
      match _file_path self with
      | Some _ =>
          if Str.contains (_delimiter self) content
          then raise ValueError
          else flush_to_file content
      | None => ret tt
      end
  | _ => raise TypeError
  end.

(** [get] *)
Definition get (max_length : pyval) : M HistoryBuffer (list string) :=
  self ← get_self;
  max_length ← match max_length with
               | PNone => ret (_buffer_size self)
               | PInt n => if n <? 0 then raise ValueError else ret n
               | _ => raise ValueError
               end;
  if max_length =? 0 then ret [] else
  if (max_length <=? Z.of_nat (length (_buffer self)))
     || match _file_path self with None => true | Some _ => false end
  then ret (slice_from (- max_length) (_buffer self))
  else
    fs ← get_fs;
    ret (slice_from (- max_length) (read_file self fs)).

(** A caller's loop [for e in entries: ring.push(e)]. *)
Fixpoint push_all (entries : list string) : M HistoryBuffer unit :=
  match entries with
  | [] => ret tt
  | e :: rest => push (PStr e);; push_all rest
  end.

End HistoryBuffer.

(** ** Unicode: white space and UTF-8 *)

Module Unicode.

Definition code (c : ascii) : N := N_of_ascii c.

Definition is_byte (n : N) (c : ascii) : bool := N.eqb (code c) n.

Definition between (lo hi : N) (c : ascii) : bool :=
  N.leb lo (code c) && N.leb (code c) hi.

(** The number of bytes of the white-space character that [s] starts with,
    0 when it starts with none.  White space is what [str.isspace] and the
    [\s] of [re] accept: U+0009-000D, U+001C-0020, U+0085, U+00A0, U+1680,
    U+2000-200A, U+2028, U+2029, U+202F, U+205F and U+3000. *)
Definition space_len (s : string) : nat :=
  match s with
  | String a r =>
      if between 9 13 a || between 28 32 a then 1%nat
      else match r with
           | String b r' =>
               if is_byte 194 a && (is_byte 133 b || is_byte 160 b) then 2%nat
               else match r' with
                    | String c _ =>
                        if is_byte 225 a && is_byte 154 b && is_byte 128 c then 3%nat
                        else if is_byte 226 a && is_byte 128 b
                                && (between 128 138 c || is_byte 168 c || is_byte 169 c || is_byte 175 c)
                        then 3%nat
                        else if is_byte 226 a && is_byte 129 b && is_byte 159 c then 3%nat
                        else if is_byte 227 a && is_byte 128 b && is_byte 128 c then 3%nat
                        else 0%nat
                    | EmptyString => 0%nat
                    end
           | EmptyString => 0%nat
           end
  | EmptyString => 0%nat
  end.

(** [s.lstrip()], which is also what the [\s*] of a pattern steps over;
    [skip] counts the bytes left of the character being dropped. *)
Fixpoint lstrip_go (skip : nat) (s : string) : string :=
  match s with
  | EmptyString => EmptyString
  | String _ r =>
      match skip with
      | S k => lstrip_go k r
      | O =>
          match space_len s with
          | O => s
          | S k => lstrip_go k r
          end
      end
  end.

Definition lstrip (s : string) : string := lstrip_go 0 s.

(** [s.rstrip()] *)
Fixpoint rstrip (s : string) : string :=
  match s with
  | EmptyString => EmptyString
  | String c r =>
      match lstrip s with
      | EmptyString => EmptyString
      | _ => String c (rstrip r)
      end
  end.

(** [s.strip()] *)
Definition strip (s : string) : string := rstrip (lstrip s).

Definition byte (n : N) : ascii := ascii_of_N n.

(** The UTF-8 bytes of the character [chr(u)]; a surrogate is encoded like
    any other character of its range. *)
Definition utf8 (u : N) : string :=
  let cont (n : N) := byte (N.lor 128 (N.land n 63)) in
  if N.ltb u 128 then String (byte u) EmptyString
  else if N.ltb u 2048 then
    String (byte (N.lor 192 (N.shiftr u 6))) (String (cont u) EmptyString)
  else if N.ltb u 65536 then
    String (byte (N.lor 224 (N.shiftr u 12)))
      (String (cont (N.shiftr u 6)) (String (cont u) EmptyString))
  else
    String (byte (N.lor 240 (N.shiftr u 18)))
      (String (cont (N.shiftr u 12))
         (String (cont (N.shiftr u 6)) (String (cont u) EmptyString))).

End Unicode.

(** ** The pattern of the translator *)

Module Re.

Definition lbrace : ascii := "{"%char.
Definition rbrace : ascii := "}"%char.

(** The lookahead [(?=\s*\{|$)] at the text [rest] that follows a match: a
    brace after white space, or the end of the text, which [$] also sees in
    front of a last newline. *)
Definition lookahead (rest : string) : bool :=
  match Unicode.lstrip rest with
  | String c _ => Ascii.eqb c lbrace
  | EmptyString => false
  end
  || String.eqb rest EmptyString
  || String.eqb rest (String newline EmptyString).

(** [.*?\}(?=\s*\{|$)] at the text behind an opening brace: the lazy star
    stops at the first closing brace that the lookahead accepts.  Returns the
    text matched. *)
Fixpoint lazy_body (s : string) : option string :=
  match s with
  | EmptyString => None
  | String c r =>
      if Ascii.eqb c rbrace && lookahead r
      then Some (String c EmptyString)
      else match lazy_body r with
           | Some m => Some (String c m)
           | None => None
           end
  end.

(** [pattern.findall(s)]: the matches from left to right, each search
    starting where the match before it ended; [skip] counts the characters
    left of the match being stepped over. *)
Fixpoint findall_go (skip : nat) (s : string) : list string :=
  match s with
  | EmptyString => []
  | String c r =>
      match skip with
      | S k => findall_go k r
      | O =>
          if Ascii.eqb c lbrace
          then match lazy_body r with
               | Some m => String c m :: findall_go (String.length m) r
               | None => findall_go O r
               end
          else findall_go O r
      end
  end.

Definition findall (s : string) : list string := findall_go O s.

End Re.

(** ** The JSON decoder

    A model of [json.loads] of the Python library, after [json/decoder.py]
    and [json/scanner.py].  Numbers are kept as their text.  An integer of
    more digits than [max_str_digits] is refused, as [int] refuses it.  The
    depth of nesting at which the interpreter gives up is not part of the
    decoder: it is no constant of the library, it depends on the interpreter
    and on the frames in use at the call. *)

#[local] Unset Elimination Schemes.
Inductive json : Type :=
| JNull
| JBool (b : bool)
| JNumber (text : string)
| JString (s : string)
| JArray (items : list json)
| JObject (pairs : list (string * json)).
#[local] Set Elimination Schemes.

Module Json.

Definition quote : ascii := "034"%char.
Definition backslash : ascii := "\"%char.

(** [sys.int_info.default_max_str_digits] *)
Definition max_str_digits : nat := 4300.

(** [WHITESPACE.match]: [[ \t\n\r]*] *)
Fixpoint ws (s : string) : string :=
  match s with
  | String c r =>
      if Unicode.is_byte 32 c || Unicode.is_byte 9 c || Unicode.is_byte 10 c || Unicode.is_byte 13 c
      then ws r else s
  | EmptyString => s
  end.

Definition hex_digit (c : ascii) : option N :=
  if Unicode.between 48 57 c then Some (Unicode.code c - 48)%N
  else if Unicode.between 97 102 c then Some (Unicode.code c - 87)%N
  else if Unicode.between 65 70 c then Some (Unicode.code c - 55)%N
  else None.

(** [BACKSLASH]: the character of a one-letter escape. *)
Definition escape (c : ascii) : option ascii :=
  if Ascii.eqb c quote then Some quote
  else if Ascii.eqb c backslash then Some backslash
  else if Ascii.eqb c "/"%char then Some "/"%char
  else if Ascii.eqb c "b"%char then Some (Unicode.byte 8)
  else if Ascii.eqb c "f"%char then Some (Unicode.byte 12)
  else if Ascii.eqb c "n"%char then Some (Unicode.byte 10)
  else if Ascii.eqb c "r"%char then Some (Unicode.byte 13)
  else if Ascii.eqb c "t"%char then Some (Unicode.byte 9)
  else None.

(** Where [scanstring] stands: between characters, behind a backslash, or
    inside the four digits of a [\u] escape. *)
Inductive scan_state : Type :=
| Plain
| Escaped
| Hex (todo : nat) (acc : N).

Definition is_high (u : N) : bool := N.leb 55296 u && N.leb u 56319.
Definition is_low (u : N) : bool := N.leb 56320 u && N.leb u 57343.

(** The text of a pending high surrogate that found no low one to pair with. *)
Definition flush (pending : option N) : string :=
  match pending with
  | Some h => Unicode.utf8 h
  | None => EmptyString
  end.

(** [scanstring] in strict mode, from behind the opening quote: the decoded
    string and the text behind the closing quote.  [pending] is a high
    surrogate read from a [\u] escape, kept until the next character shows
    whether a low surrogate follows it. *)
Fixpoint scanstring_go (st : scan_state) (pending : option N) (s : string)
  : option (string * string) :=
  match s with
  | EmptyString => None
  | String c r =>
      match st with
      | Plain =>
          if Ascii.eqb c quote then Some (flush pending, r)
          else if Ascii.eqb c backslash then scanstring_go Escaped pending r
          else if N.ltb (Unicode.code c) 32 then None
          else match scanstring_go Plain None r with
               | Some (out, rest) => Some (flush pending +:+ String c out, rest)
               | None => None
               end
      | Escaped =>
          if Ascii.eqb c "u"%char then scanstring_go (Hex 4 0) pending r
          else match escape c with
               | Some e =>
                   match scanstring_go Plain None r with
                   | Some (out, rest) => Some (flush pending +:+ String e out, rest)
                   | None => None
                   end
               | None => None
               end
      | Hex todo acc =>
          match hex_digit c with
          | None => None
          | Some d =>
              let u := (acc * 16 + d)%N in
              match todo with
              | S (S k) => scanstring_go (Hex (S k) u) pending r
              | _ =>
                  match pending with
                  | Some h =>
                      if is_low u
                      then
                        let joined := (65536 + N.lor (N.shiftl (h - 55296) 10) (u - 56320))%N in
                        match scanstring_go Plain None r with
                        | Some (out, rest) => Some (Unicode.utf8 joined +:+ out, rest)
                        | None => None
                        end
                      else if is_high u
                      then match scanstring_go Plain (Some u) r with
                           | Some (out, rest) => Some (Unicode.utf8 h +:+ out, rest)
                           | None => None
                           end
                      else match scanstring_go Plain None r with
                           | Some (out, rest) =>
                               Some (Unicode.utf8 h +:+ Unicode.utf8 u +:+ out, rest)
                           | None => None
                           end
                  | None =>
                      if is_high u then scanstring_go Plain (Some u) r
                      else match scanstring_go Plain None r with
                           | Some (out, rest) => Some (Unicode.utf8 u +:+ out, rest)
                           | None => None
                           end
                  end
              end
          end
      end
  end.

Definition scanstring (s : string) : option (string * string) :=
  scanstring_go Plain None s.

Definition is_digit (c : ascii) : bool := Unicode.between 48 57 c.

(** The longest run of digits that [s] starts with, and the text behind it. *)
Fixpoint digits (s : string) : string * string :=
  match s with
  | String c r =>
      if is_digit c then let '(ds, rest) := digits r in (String c ds, rest)
      else (EmptyString, s)
  | EmptyString => (EmptyString, s)
  end.

(** [NUMBER_RE.match]: an optional minus sign and an integer part, which is
    0 or starts with a digit other than 0; then, each only when it is
    complete, a fraction (a dot and digits) and an exponent (e or E, an
    optional sign, digits).  Returns the text of the number and the text
    behind it; an integer of more than [max_str_digits] digits is refused by
    [int]. *)
Definition number (s : string) : option (string * string) :=
  let '(sign, s1) :=
    match s with
    | String "-"%char r => ("-", r)
    | _ => (EmptyString, s)
    end in
  match s1 with
  | String c r =>
      if is_digit c then
        let '(int, s2) :=
          if Ascii.eqb c "0"%char then (String c EmptyString, r)
          else let '(ds, rest) := digits r in (String c ds, rest) in
        let '(frac, s3) :=
          match s2 with
          | String "."%char r2 =>
              match digits r2 with
              | (EmptyString, _) => (EmptyString, s2)
              | (ds, rest) => (String "."%char ds, rest)
              end
          | _ => (EmptyString, s2)
          end in
        let '(exp, s4) :=
          match s3 with
          | String e r3 =>
              if Ascii.eqb e "e"%char || Ascii.eqb e "E"%char then
                let '(sg, r4) :=
                  match r3 with
                  | String g r' =>
                      if Ascii.eqb g "-"%char || Ascii.eqb g "+"%char
                      then (String g EmptyString, r')
                      else (EmptyString, r3)
                  | EmptyString => (EmptyString, r3)
                  end in
                match digits r4 with
                | (EmptyString, _) => (EmptyString, s3)
                | (ds, rest) => (String e (sg +:+ ds), rest)
                end
              else (EmptyString, s3)
          | EmptyString => (EmptyString, s3)
          end in
        match frac, exp with
        | EmptyString, EmptyString =>
            if (max_str_digits <? String.length int)%nat then None
            else Some (sign +:+ int, s4)
        | _, _ => Some (sign +:+ int +:+ frac +:+ exp, s4)
        end
      else None
  | EmptyString => None
  end.

(** [s] with the word [w] taken off its front. *)
Definition after (w s : string) : option string :=
  if String.prefix w s then Some (Str.drop (String.length w) s) else None.

(** What the decoder is reading: a value, the pairs of an object from behind
    the opening quote of a key, or the items of an array from the start of an
    item. *)
Inductive goal : Type :=
| Value
| Pairs (acc : list (string * json))
| Items (acc : list json).

(** [scan_once], [JSONObject] and [JSONArray]; every call that goes deeper
    or further takes one unit of [fuel], and of two calls in a row one reads
    at least one character. *)
Fixpoint scan (fuel : nat) (g : goal) (s : string) : option (json * string) :=
  match fuel with
  | O => None
  | S fuel =>
      match g with
      | Value =>
          match s with
          | EmptyString => None
          | String c r =>
              if Ascii.eqb c quote then
                match scanstring r with
                | Some (str, rest) => Some (JString str, rest)
                | None => None
                end
              else if Ascii.eqb c "{"%char then
                match ws r with
                | String c' r' =>
                    if Ascii.eqb c' "}"%char then Some (JObject [], r')
                    else if Ascii.eqb c' quote then scan fuel (Pairs []) r'
                    else None
                | EmptyString => None
                end
              else if Ascii.eqb c "["%char then
                match ws r with
                | String c' r' =>
                    if Ascii.eqb c' "]"%char then Some (JArray [], r')
                    else scan fuel (Items []) (ws r)
                | EmptyString => None
                end
              else
                match after "null" s, after "true" s, after "false" s with
                | Some rest, _, _ => Some (JNull, rest)
                | _, Some rest, _ => Some (JBool true, rest)
                | _, _, Some rest => Some (JBool false, rest)
                | _, _, _ =>
                    match number s with
                    | Some (text, rest) => Some (JNumber text, rest)
                    | None =>
                        match after "NaN" s, after "Infinity" s, after "-Infinity" s with
                        | Some rest, _, _ => Some (JNumber "NaN", rest)
                        | _, Some rest, _ => Some (JNumber "Infinity", rest)
                        | _, _, Some rest => Some (JNumber "-Infinity", rest)
                        | _, _, _ => None
                        end
                    end
                end
          end
      | Pairs acc =>
          match scanstring s with
          | None => None
          | Some (key, s1) =>
              match ws s1 with
              | String ":"%char s2 =>
                  match scan fuel Value (ws s2) with
                  | None => None
                  | Some (value, s3) =>
                      let acc := acc ++ [(key, value)] in
                      match ws s3 with
                      | String c s4 =>
                          if Ascii.eqb c "}"%char then Some (JObject acc, s4)
                          else if Ascii.eqb c ","%char then
                            match ws s4 with
                            | String c' s5 =>
                                if Ascii.eqb c' quote then scan fuel (Pairs acc) s5
                                else None
                            | EmptyString => None
                            end
                          else None
                      | EmptyString => None
                      end
                  end
              | _ => None
              end
          end
      | Items acc =>
          match scan fuel Value s with
          | None => None
          | Some (value, s1) =>
              let acc := acc ++ [value] in
              match ws s1 with
              | String c s2 =>
                  if Ascii.eqb c "]"%char then Some (JArray acc, s2)
                  else if Ascii.eqb c ","%char then scan fuel (Items acc) (ws s2)
                  else None
              | EmptyString => None
              end
          end
      end
  end.

(** The byte order mark, which [loads] refuses. *)
Definition bom : string :=
  String (Unicode.byte 239) (String (Unicode.byte 187) (String (Unicode.byte 191) EmptyString)).

(** [json.loads(s)]; [None] stands for the exception of a text that is not
    JSON. *)
Definition loads (s : string) : option json :=
  if String.prefix bom s then None else
  match scan (2 * String.length s + 2) Value (ws s) with
  | Some (value, rest) =>
      match ws rest with
      | EmptyString => Some value
      | _ => None
      end
  | None => None
  end.

(** [d[key]] for the dict that [dict(pairs)] builds: the last pair of a key
    is the one that stays. *)
Fixpoint dict_get (key : string) (pairs : list (string * json)) : option json :=
  match pairs with
  | [] => None
  | (k, v) :: rest =>
      match dict_get key rest with
      | Some v' => Some v'
      | None => if String.eqb k key then Some v else None
      end
  end.

End Json.

(** ** Translator *)

Inductive Message : Type :=
| SystemMessage (content : string)
| HumanMessage (content : string).

Record Result : Type := mkResult {
  original_text : string;
  translated_text : string
}.

(** The chat model is the collaborator: [chain.invoke(messages).content]
    is the content of its reply, which may be of any type, unless the call
    raises. *)
Record Translator : Type := mkTranslator {
  chat_model : list Message -> outcome pyval;
  history_buffer : HistoryBuffer
}.

Definition set_history_buffer (hb : HistoryBuffer) (self : Translator) : Translator :=
  mkTranslator (chat_model self) hb.

Section TranslatorModel.

(** [repr] of a [str], a builtin of Python that rests on the Unicode
    database. *)
Variable repr : string -> string.

(** The instruction message, a constant of [translator.py] (its lines 7 to
    49); it only travels to the chat model. *)
Variable system_message : Message.

(** [str(l)] for a list of strings. *)
Definition str_list (l : list string) : string :=
  "[" +:+ String.concat ", " (map repr l) +:+ "]".

(** [str(result)] for the dict of the two texts. *)
Definition str_result (result : Result) : string :=
  "{'original_text': " +:+ repr (original_text result) +:+
  ", 'translated_text': " +:+ repr (translated_text result) +:+ "}".

(** [human_message_prompt_template.format(...)] *)
Definition human_message_prompt
    (target input_language output_language preceding_context : string) : string :=
  "
<translation range>
" +:+ target +:+ "
</translation range>

<input language>
" +:+ input_language +:+ "
</input language>

<output language>
" +:+ output_language +:+ "
</output language>

<preceding context>
" +:+ preceding_context +:+ "
</preceding context>

translation output for the specified translation range:
".

(** The loop over the matched fragments: [None] is the [translated_text = None]
    that the first bad fragment leaves behind.  A fragment that decodes to
    anything but an object ends there as well, with or without an exception. *)
Fixpoint collect (matched_jsons : list string) (translated_text : list string)
  : option (list string) :=
  match matched_jsons with
  | [] => Some translated_text
  | js :: rest =>
      match Json.loads js with
      | Some (JObject pairs) =>
          match Json.dict_get "translated_text" pairs with
          | Some (JString text) => collect rest (translated_text ++ [text])
          | _ => None
          end
      | _ => None
      end
  end.

(** Lines 119 to 139 of [translate]: from the reply to the translated text. *)
Definition extract (target reply : string) : string :=
  let matched_jsons := Re.findall reply in
  match collect matched_jsons [] with
  | None => target
  | Some translated_text => Str.join (String newline EmptyString) translated_text
  end.

(** The messages that [translate] sends to the chat model. *)
Definition request (target input_language output_language preceding_context : string)
  : list Message :=
  [system_message;
   HumanMessage (human_message_prompt (Unicode.strip target) input_language
                   output_language preceding_context)].

(** [Translator.__init__] *)
Definition Translator_init (model : list Message -> outcome pyval)
    (preceding_context_length history_file_path : pyval) (fs : gmap string File)
  : outcome Translator :=
  match HistoryBuffer.init preceding_context_length history_file_path
          (PStr default_delimiter) fs with
  | Return hb => Return (mkTranslator model hb)
  | Raise e => Raise e
  end.

(** [Translator.translate] *)
Definition translate (target input_language output_language : string)
    (include_preceding_context : bool) : M Translator Result :=
  preceding_context ←
    (if include_preceding_context
     then entries ← on_field history_buffer set_history_buffer (HistoryBuffer.get PNone);
          ret (str_list entries)
     else ret EmptyString);
  self ← get_self;
  let messages := request target input_language output_language preceding_context in
  content ← match chat_model self messages with
            | Return content => ret content
            | Raise e => raise e
            end;
  (* [pattern.findall] takes a [str] *)
  ai_message ← match content with
               | PStr text => ret text
               | _ => raise TypeError
               end;
  let result := mkResult target (extract target ai_message) in
  on_field history_buffer set_history_buffer
    (HistoryBuffer.push (PStr (str_result result)));;
  ret result.

End TranslatorModel.

(** The reply [{"translated_text": "bonjour"}]. *)
Definition bonjour_reply : string :=
  let q := String Json.quote EmptyString in
  "{" +:+ q +:+ "translated_text" +:+ q +:+ ": " +:+ q +:+ "bonjour" +:+ q +:+ "}".

(** ** Notions used to state the properties of the translator *)

Module TranslatorSpec.

(** The preceding context that [translate] hands to the chat model. *)
Definition preceding (repr : string -> string) (include_preceding_context : bool)
    (self : Translator) (fs : gmap string File) : string :=
  if include_preceding_context
  then match HistoryBuffer.get PNone (history_buffer self) fs with
       | (Return entries, _, _) => str_list repr entries
       | (Raise _, _, _) => EmptyString
       end
  else EmptyString.

(** What the collaborator does with the request of [translate]. *)
Definition answer_of (repr : string -> string) (system_message : Message)
    (target input_language output_language : string) (include_preceding_context : bool)
    (self : Translator) (fs : gmap string File) : outcome pyval :=
  chat_model self
    (request system_message target input_language output_language
       (preceding repr include_preceding_context self fs)).

(** The reply of the collaborator to the request of [translate]: the text
    that [translate] goes on with, empty when there is none. *)
Definition reply (repr : string -> string) (system_message : Message)
    (target input_language output_language : string) (include_preceding_context : bool)
    (self : Translator) (fs : gmap string File) : string :=
  match answer_of repr system_message target input_language output_language
          include_preceding_context self fs with
  | Return (PStr text) => text
  | _ => EmptyString
  end.

(** The fragment [js] decodes to an object whose [translated_text] is the
    string [text]. *)
Definition field_text (js text : string) : Prop :=
  exists pairs,
    Json.loads js = Some (JObject pairs) /\
    Json.dict_get "translated_text" pairs = Some (JString text).

(** A translator without storage whose collaborator always answers [answer]. *)
Definition answering (answer : string) : Translator :=
  mkTranslator (fun _ => Return (PStr answer))
    (mkHistoryBuffer None default_delimiter default_buffer_size []).

(** A stand-in for [repr] that puts the text between single quotes. *)
Definition quoted (s : string) : string := "'" +:+ s +:+ "'".

End TranslatorSpec.

(** ** Notions used to state the properties *)

Module RingSpec.

(** The in-memory sequence after the first step of [push]. *)
Definition pushed (content : string) (self : HistoryBuffer) : HistoryBuffer :=
  if 0 <? _buffer_size self
  then set_buffer (last_n (Z.to_nat (_buffer_size self)) (_buffer self ++ [content])) self
  else self.

(** The text of a file, the empty text for a missing one. *)
Definition text_at (path : string) (fs : gmap string File) : string :=
  match fs !! path with
  | Some f => contents f
  | None => EmptyString
  end.

(** What stops [__flush_to_file] before it writes: the exception of
    [os.makedirs] or of [open], [None] when the file is open. *)
Definition opening (path : string) (fs : gmap string File) : option exn :=
  match dirname path with
  | EmptyString => Some OSError
  | d =>
      match makedirs_stop fs (dir_prefixes_go EmptyString (d +:+ String slash EmptyString)) with
      | Some e => Some e
      | None =>
          if has_nul path then Some ValueError
          else if blocked fs d || names_directory path || is_dir fs path then Some OSError
          else match fs !! path with
               | Some f => if writable f then None else Some OSError
               | None => None
               end
      end
  end.

(** A path that [__flush_to_file] can append to. *)
Definition appendable (path : string) (fs : gmap string File) : bool :=
  match opening path fs with
  | None => true
  | Some _ => false
  end.

(** The file system after [open(path, 'a')]. *)
Definition opened (path : string) (fs : gmap string File) : gmap string File :=
  match fs !! path with
  | Some _ => fs
  | None => <[path := mkFile EmptyString true true]> fs
  end.

(** The file system after appending [text] to the file at [path]. *)
Definition appended (path text : string) (fs : gmap string File) : gmap string File :=
  match fs !! path with
  | Some f => <[path := mkFile (contents f +:+ text) (readable f) (writable f)]> fs
  | None => <[path := mkFile text true true]> fs
  end.

(** A file that is missing, or that cannot be read. *)
Definition unavailable (path : string) (fs : gmap string File) : Prop :=
  fs !! path = None \/ exists f, fs !! path = Some f /\ readable f = false.

(** A storage location nothing was logged to yet: no file, or an empty one. *)
Definition fresh (path : string) (fs : gmap string File) : Prop :=
  fs !! path = None \/
  exists f, fs !! path = Some f /\ contents f = EmptyString /\ readable f = true.

(** The text of the log that holds the entries [es]. *)
Fixpoint log (sep : string) (es : list string) : string :=
  match es with
  | [] => EmptyString
  | e :: rest => sep +:+ e +:+ log sep rest
  end.

(** The ring of capacity 2 over the log [d/h], holding one entry. *)
Definition ring_d_h : HistoryBuffer := mkHistoryBuffer (Some "d/h") "," 2 ["a"].

End RingSpec.

(** ** Notions used to state further properties *)

Module MoreSpec.

(** The arguments that [__init__] accepts. *)
Definition valid_buffer_size (v : pyval) : bool :=
  match v with
  | PInt n => 0 <=? n
  | _ => false
  end.

Definition valid_file_path (v : pyval) : bool :=
  match v with
  | PNone | PStr _ => true
  | _ => false
  end.

Definition valid_delimiter (v : pyval) : bool :=
  match v with
  | PStr d => negb (String.eqb d EmptyString)
  | _ => false
  end.

(** The arguments that [get] accepts. *)
Definition valid_max_length (v : pyval) : bool :=
  match v with
  | PNone => true
  | PInt n => 0 <=? n
  | _ => false
  end.

(** The rings that a program can hold: built by [__init__], then used through
    [push] and [get], whether these return or raise. *)
Inductive constructed : HistoryBuffer -> Prop :=
| constructed_init (buffer_size file_path delimiter : pyval) (fs : gmap string File)
    (hb : HistoryBuffer) :
    HistoryBuffer.init buffer_size file_path delimiter fs = Return hb ->
    constructed hb
| constructed_push (content : pyval) (hb hb' : HistoryBuffer) (fs fs' : gmap string File)
    (r : outcome unit) :
    constructed hb ->
    HistoryBuffer.push content hb fs = (r, hb', fs') ->
    constructed hb'
| constructed_get (max_length : pyval) (hb hb' : HistoryBuffer) (fs fs' : gmap string File)
    (r : outcome (list string)) :
    constructed hb ->
    HistoryBuffer.get max_length hb fs = (r, hb', fs') ->
    constructed hb'.

(** [c in s] for a character. *)
Fixpoint has_char (c : ascii) (s : string) : bool :=
  match s with
  | EmptyString => false
  | String a r => Ascii.eqb a c || has_char c r
  end.

(** A fragment that does not decode to an object with a string
    [translated_text]. *)
Definition bad_fragment (js : string) : Prop :=
  forall text, ~ TranslatorSpec.field_text js text.



(** The text between the braces of [bonjour_reply]. *)
Definition bonjour_body : string :=
  let q := String Json.quote EmptyString in
  q +:+ "translated_text" +:+ q +:+ ": " +:+ q +:+ "bonjour" +:+ q.

(** A translator whose history is logged at [path] and whose collaborator
    always answers [answer]. *)
Definition answering_logged (answer path : string) : Translator :=
  mkTranslator (fun _ => Return (PStr answer))
    (mkHistoryBuffer (Some path) default_delimiter default_buffer_size []).

End MoreSpec.

(** * Properties *)

(** ** Slices *)

Section Slices.
Context {A : Type}.
Implicit Types (l : list A) (x : A).

Lemma slice_from_neg (c : Z) l :
  0 < c -> slice_from (- c) l = last_n (Z.to_nat c) l.
Proof.
  intros Hc. unfold slice_from, last_n.
  destruct (Z.ltb_spec (- c) 0) as [_|]; [|lia].
  f_equal. lia.
Qed.

Lemma slice_from_one l : slice_from 1 l = tail l.
Proof.
  unfold slice_from. destruct l as [|x l]; [reflexivity|].
  cbn [length]. replace (Z.to_nat _) with 1%nat by (cbn; lia). reflexivity.
Qed.

Lemma last_n_all (n : nat) l : (length l <= n)%nat -> last_n n l = l.
Proof.
  intros H. unfold last_n. replace (length l - n)%nat with 0%nat by lia. reflexivity.
Qed.

Lemma last_n_zero l : last_n 0 l = [].
Proof. unfold last_n. rewrite Nat.sub_0_r. apply skipn_all. Qed.

Lemma last_n_length (n : nat) l : length (last_n n l) = Nat.min n (length l).
Proof. unfold last_n. rewrite length_skipn. lia. Qed.

Lemma last_n_snoc (n : nat) l x :
  (1 <= n)%nat -> last_n n (last_n n l ++ [x]) = last_n n (l ++ [x]).
Proof.
  intros Hn. destruct (Nat.le_gt_cases (length l) n) as [Hle|Hgt].
  - rewrite (last_n_all n l) by exact Hle. reflexivity.
  - unfold last_n at 1 3. rewrite !length_app, last_n_length. cbn [length].
    replace (Nat.min n (length l) + 1 - n)%nat with 1%nat by lia.
    unfold last_n.
    rewrite !skipn_app, skipn_skipn, length_skipn.
    replace (1 + (length l - n))%nat with (length l + 1 - n)%nat by lia.
    f_equal. f_equal. lia.
Qed.

Lemma last_n_app (n : nat) l1 l2 :
  (1 <= n)%nat -> last_n n (last_n n l1 ++ l2) = last_n n (l1 ++ l2).
Proof.
  intros Hn. revert l1. induction l2 as [|x l2 IH]; intros l1.
  - rewrite !app_nil_r. apply last_n_all. rewrite last_n_length. lia.
  - replace (last_n n l1 ++ x :: l2) with ((last_n n l1 ++ [x]) ++ l2)
      by (rewrite <- app_assoc; reflexivity).
    replace (l1 ++ x :: l2) with ((l1 ++ [x]) ++ l2)
      by (rewrite <- app_assoc; reflexivity).
    rewrite <- (IH (l1 ++ [x])), <- (IH (last_n n l1 ++ [x])).
    rewrite last_n_snoc by exact Hn. reflexivity.
Qed.

End Slices.

(** ** The fuel of the decoder *)

Module JsonFacts.
Import Json.

(** What the decoder has read with some fuel, it reads with more. *)
Lemma scan_more_fuel (fuel : nat) (g : goal) (s : string) (r : json * string) :
  scan fuel g s = Some r -> scan (S fuel) g s = Some r.
Proof.
  revert g s r. induction fuel as [|fuel IH]; intros g s r H; [discriminate|].
  remember (S fuel) as f' eqn:Hf'.
  cbn [scan]. rewrite Hf' in H. cbn [scan] in H. 
  destruct g.
  - destruct s as [|c s0]; [discriminate|].
    repeat match type of H with
    | context [if ?b then _ else _] => destruct b
    | context [match ws ?x with _ => _ end] => destruct (ws x)
    | context [match scanstring ?x with _ => _ end] => destruct (scanstring x) as [[? ?]|]
    end; try exact H; try (subst f'; apply IH; exact H).
  - destruct (scanstring s) as [[key s1]|]; [|discriminate].
    destruct (ws s1) as [|c1 s2]; [discriminate|].
    destruct c1 as [[] [] [] [] [] [] [] []]; try discriminate.
    destruct (scan fuel Value (ws s2)) as [[value s3]|] eqn:E; [|discriminate].
    subst f'. rewrite (IH _ _ _ E).
    destruct (ws s3) as [|c s4]; [discriminate|].
    destruct (Ascii.eqb c "}"); [exact H|].
    destruct (Ascii.eqb c ","); [|discriminate].
    destruct (ws s4) as [|c' s5]; [discriminate|].
    destruct (Ascii.eqb c' quote); [|discriminate].
    apply IH, H.
  - destruct (scan fuel Value s) as [[value s1]|] eqn:E; [|discriminate].
    subst f'. rewrite (IH _ _ _ E).
    destruct (ws s1) as [|c s2]; [discriminate|].
    destruct (Ascii.eqb c "]"); [exact H|].
    destruct (Ascii.eqb c ","); [|discriminate].
    apply IH, H.
Qed.

Lemma scan_fuel_le (fuel fuel' : nat) (g : goal) (s : string) (r : json * string) :
  (fuel <= fuel')%nat -> scan fuel g s = Some r -> scan fuel' g s = Some r.
Proof.
  intros Hle H. induction Hle as [|fuel' _ IH]; [exact H|].
  apply scan_more_fuel, IH.
Qed.

End JsonFacts.

(** ** Text that goes through a file unchanged *)

Module TextFacts.
Import Text MoreSpec.

Lemma append_cons (c : ascii) (a b : string) : String c a +:+ b = String c (a +:+ b).
Proof. reflexivity. Qed.

Lemma has_char_app (c : ascii) (a b : string) :
  has_char c (a +:+ b) = has_char c a || has_char c b.
Proof.
  induction a as [|x a IH]; [reflexivity|].
  rewrite append_cons. cbn [has_char]. rewrite IH, orb_assoc. reflexivity.
Qed.

(** A character that is whole in [a] is the same character in front of
    more text. *)
Lemma char_len_app (a b : string) (n : nat) :
  char_len a = S n -> char_len (a +:+ b) = S n.
Proof.
  destruct a as [|c1 [|c2 [|c3 [|c4 a]]]]; rewrite ?append_cons; cbn [char_len].
  - discriminate.
  - destruct (byte_in 0 127 c1); [destruct b; auto|discriminate].
  - destruct (byte_in 0 127 c1); [auto|].
    destruct (byte_in 194 223 c1 && cont c2); [destruct b; auto|discriminate].
  - destruct (byte_in 0 127 c1); [auto|].
    destruct (byte_in 194 223 c1 && cont c2); [auto|].
    match goal with |- (if ?x then _ else _) = _ -> _ => destruct x end;
      [destruct b; auto|discriminate].
  - destruct (byte_in 0 127 c1); [auto|].
    destruct (byte_in 194 223 c1 && cont c2); [auto|].
    match goal with |- (if ?x then _ else _) = _ -> _ => destruct x end; auto.
Qed.

Lemma valid_go_app (k : nat) (a b : string) :
  valid_go k a = true -> valid_go 0 b = true -> valid_go k (a +:+ b) = true.
Proof.
  intros Ha Hb. revert k Ha. induction a as [|c a IH]; intros k Ha.
  - destruct k; [exact Hb|discriminate].
  - rewrite append_cons. cbn [valid_go] in *. destruct k as [|k]; [|apply IH, Ha].
    rewrite <- append_cons.
    destruct (char_len (String c a)) as [|n] eqn:Hn; [discriminate|].
    rewrite (char_len_app _ b n Hn). apply IH, Ha.
Qed.

Lemma utf8_valid_app (a b : string) :
  utf8_valid a = true -> utf8_valid b = true -> utf8_valid (a +:+ b) = true.
Proof. apply valid_go_app. Qed.

(** Text without carriage return is read as it was written. *)
Lemma universal_newlines_id (s : string) :
  has_char cr s = false -> universal_newlines s = s.
Proof.
  unfold universal_newlines. induction s as [|c s IH]; [reflexivity|].
  cbn [has_char newlines_go]. intros H. apply orb_false_iff in H as [Hc Hs].
  rewrite Hc, andb_false_r, (IH Hs). reflexivity.
Qed.

End TextFacts.

(** ** What the methods compute, case by case *)

Module HistoryBufferFacts.
Import HistoryBuffer RingSpec.

Lemma push_unfold (content : string) (self : HistoryBuffer) (fs : FileSystem) :
  push (PStr content) self fs =
  match _file_path self with
  | Some _ =>
      if Str.contains (_delimiter self) content
      then (Raise ValueError, pushed content self, fs)
      else flush_to_file content (pushed content self) fs
  | None => (Return tt, pushed content self, fs)
  end.
Proof.
  unfold push, pushed, mbind, M_bind, bind, get_self.
  destruct (Z.ltb_spec 0 (_buffer_size self)) as [Hpos|Hnp].
  - rewrite slice_from_neg by exact Hpos. cbn.
    destruct (_file_path self); [|reflexivity].
    destruct (Str.contains _ _); reflexivity.
  - cbn. destruct (_file_path self); [|reflexivity].
    destruct (Str.contains _ _); reflexivity.
Qed.

Lemma pushed_no_storage (content : string) (self : HistoryBuffer) :
  _file_path (pushed content self) = _file_path self /\
  _delimiter (pushed content self) = _delimiter self /\
  _buffer_size (pushed content self) = _buffer_size self.
Proof. unfold pushed. destruct (0 <? _); auto. Qed.

Lemma append_assoc (a b c : string) : (a +:+ b) +:+ c = a +:+ (b +:+ c).
Proof. induction a as [|x a IH]; [reflexivity|]. exact (f_equal (String x) IH). Qed.

Lemma append_nil_r (a : string) : a +:+ EmptyString = a.
Proof. induction a as [|x a IH]; [reflexivity|]. exact (f_equal (String x) IH). Qed.

Lemma appended_opened (path text : string) (fs : gmap string File) :
  appended path text (opened path fs) = appended path text fs.
Proof.
  unfold appended, opened. destruct (fs !! path) as [f|] eqn:Hf.
  - rewrite Hf. reflexivity.
  - rewrite lookup_insert_eq. cbn. apply insert_insert_eq.
Qed.

Lemma appended_appended (path a b : string) (fs : gmap string File) :
  appended path b (appended path a fs) = appended path (a +:+ b) fs.
Proof.
  unfold appended. destruct (fs !! path) as [f|] eqn:Hf.
  - rewrite lookup_insert_eq. cbn. rewrite insert_insert_eq, append_assoc. reflexivity.
  - rewrite lookup_insert_eq. cbn. rewrite insert_insert_eq. reflexivity.
Qed.

Lemma write_unfold {S : Type} (path text : string) (self : S) (fs : gmap string File) :
  is_Some (fs !! path) ->
  write path text self fs =
  if Text.utf8_valid text then (Return tt, self, appended path text fs)
  else (Raise UnicodeEncodeError, self, fs).
Proof.
  intros [f Hf]. unfold write, appended, mbind, M_bind, bind, get_fs, set_fs, raise.
  rewrite Hf. destruct (Text.utf8_valid text); reflexivity.
Qed.

Lemma opened_is_Some (path : string) (fs : gmap string File) :
  is_Some (opened path fs !! path).
Proof.
  unfold opened. destruct (fs !! path) as [f|] eqn:Hf; [rewrite Hf; eauto|].
  rewrite lookup_insert_eq. eauto.
Qed.

Lemma appended_is_Some (path text : string) (fs : gmap string File) :
  is_Some (appended path text fs !! path).
Proof.
  unfold appended. destruct (fs !! path); rewrite lookup_insert_eq; eauto.
Qed.

(** [os.makedirs] and [open], step by step. *)
Lemma open_unfold {S : Type} (path : string) (self : S) (fs : gmap string File) :
  (makedirs (dirname path);; open_append path) self fs =
  match opening path fs with
  | Some e => (Raise e, self, fs)
  | None => (Return tt, self, opened path fs)
  end.
Proof.
  unfold opening, opened, makedirs, open_append, mbind, M_bind, bind, get_fs, set_fs,
    raise, ret.
  destruct (dirname path) as [|c d]; [reflexivity|].
  destruct (makedirs_stop fs _); [reflexivity|].
  destruct (has_nul path); [reflexivity|].
  destruct (blocked fs (String c d) || names_directory path || is_dir fs path);
    [reflexivity|].
  destruct (fs !! path) as [f|]; [|reflexivity].
  destruct (writable f); reflexivity.
Qed.



Lemma flush_to_file_unfold (content path : string) (self : HistoryBuffer)
    (fs : gmap string File) :
  _file_path self = Some path ->
  flush_to_file content self fs =
  match opening path fs with
  | Some e => (Raise e, self, fs)
  | None =>
      if Text.utf8_valid (_delimiter self)
      then if Text.utf8_valid content
           then (Return tt, self, appended path (_delimiter self +:+ content) fs)
           else (Raise UnicodeEncodeError, self, appended path (_delimiter self) fs)
      else (Raise UnicodeEncodeError, self, opened path fs)
  end.
Proof.
  intros Hp.
  assert (Hsplit : flush_to_file content self fs =
            match (makedirs (dirname path);; open_append path) self fs with
            | (Return _, self', fs') =>
                (write path (_delimiter self);; write path content) self' fs'
            | (Raise e, self', fs') => (Raise e, self', fs')
            end).
  { unfold flush_to_file, mbind, M_bind, bind, get_self. rewrite Hp.
    destruct (makedirs (dirname path) self fs) as [[[[]|e] s1] fs1]; [|reflexivity].
    destruct (open_append path s1 fs1) as [[[[]|e] s2] fs2]; reflexivity. }
  rewrite Hsplit, open_unfold. destruct (opening path fs) as [e|]; [reflexivity|].
  unfold mbind, M_bind, bind.
  rewrite write_unfold by apply opened_is_Some.
  destruct (Text.utf8_valid (_delimiter self)); [|reflexivity].
  rewrite appended_opened, write_unfold by apply appended_is_Some.
  destruct (Text.utf8_valid content); [|reflexivity].
  rewrite appended_appended. reflexivity.
Qed.

Lemma get_unfold (m : Z) (self : HistoryBuffer) (fs : gmap string File) :
  0 < m ->
  get (PInt m) self fs =
  (Return (if (m <=? Z.of_nat (length (_buffer self)))
              || match _file_path self with None => true | Some _ => false end
           then last_n (Z.to_nat m) (_buffer self)
           else last_n (Z.to_nat m) (read_file self fs)),
   self, fs).
Proof.
  intros Hm. unfold get, mbind, M_bind, bind, get_self, get_fs, ret. cbn.
  destruct (Z.ltb_spec m 0); [lia|]. cbn.
  destruct (Z.eqb_spec m 0); [lia|].
  destruct (_ || _); cbn; rewrite slice_from_neg by exact Hm; reflexivity.
Qed.

(** The read-through path of [get]. *)
Lemma get_read_through (m : Z) (path : string) (self : HistoryBuffer) (fs : gmap string File) :
  _file_path self = Some path ->
  Z.of_nat (length (_buffer self)) < m ->
  get (PInt m) self fs = (Return (last_n (Z.to_nat m) (read_file self fs)), self, fs).
Proof.
  intros Hp Hm. rewrite get_unfold by lia. rewrite Hp.
  destruct (Z.leb_spec m (Z.of_nat (length (_buffer self)))); [lia|]. reflexivity.
Qed.

Lemma get_zero (self : HistoryBuffer) (fs : gmap string File) :
  get (PInt 0) self fs = (Return [], self, fs).
Proof. reflexivity. Qed.

Lemma get_default (self : HistoryBuffer) (fs : gmap string File) :
  0 <= _buffer_size self ->
  get PNone self fs = get (PInt (_buffer_size self)) self fs.
Proof.
  intros Hc. unfold get, mbind, M_bind, bind, get_self, ret. cbn.
  destruct (Z.ltb_spec (_buffer_size self) 0); [lia|]. reflexivity.
Qed.

Lemma init_unfold (c : Z) (path : option string) (d : string) (fs : gmap string File) :
  0 <= c -> (1 <= String.length d)%nat ->
  init (PInt c) (match path with Some p => PStr p | None => PNone end) (PStr d) fs =
  Return (mkHistoryBuffer path d c
            (match path with
             | Some (String _ _) =>
                 if 0 <? c
                 then last_n (Z.to_nat c) (read_file (mkHistoryBuffer path d c []) fs)
                 else []
             | _ => []
             end)).
Proof.
  intros Hc Hd. unfold init.
  destruct (Z.ltb_spec c 0); [lia|].
  destruct (Nat.ltb_spec (String.length d) 1); [lia|].
  destruct path as [[|a p]|]; cbn; try reflexivity.
  destruct (Z.ltb_spec 0 c); [|reflexivity].
  rewrite slice_from_neg by assumption. reflexivity.
Qed.

Lemma read_text_unavailable (path : string) (fs : gmap string File) :
  unavailable path fs -> read_text path fs = None.
Proof.
  unfold read_text. intros [->|(f & -> & ->)]; reflexivity.
Qed.

Lemma read_file_unavailable (self : HistoryBuffer) (path : string) (fs : gmap string File) :
  _file_path self = Some path -> unavailable path fs -> read_file self fs = [].
Proof.
  intros Hp Hu. unfold read_file. rewrite Hp, (read_text_unavailable _ _ Hu). reflexivity.
Qed.

Lemma text_at_appended (path text : string) (fs : gmap string File) :
  text_at path (appended path text fs) = text_at path fs +:+ text.
Proof.
  unfold text_at, appended. destruct (fs !! path) as [f|] eqn:Hf;
    rewrite lookup_insert_eq; reflexivity.
Qed.

Lemma appended_other (path text q : string) (fs : gmap string File) :
  q <> path -> appended path text fs !! q = fs !! q.
Proof.
  intros Hq. unfold appended.
  destruct (fs !! path); rewrite lookup_insert_ne by congruence; reflexivity.
Qed.

(** Pushing onto a ring without storage never fails and leaves the file
    system alone. *)
Lemma push_all_no_storage (es : list string) (self : HistoryBuffer) (fs : gmap string File) :
  _file_path self = None ->
  push_all es self fs = (Return tt, fold_left (fun h e => pushed e h) es self, fs).
Proof.
  revert self. induction es as [|e es IH]; intros self Hp; [reflexivity|].
  cbn [push_all fold_left]. unfold mbind, M_bind, bind.
  rewrite push_unfold, Hp. apply IH.
  destruct (pushed_no_storage e self) as (-> & _). exact Hp.
Qed.

Lemma fold_pushed_positive (es : list string) (e : string) (self : HistoryBuffer) :
  0 < _buffer_size self ->
  fold_left (fun h e => pushed e h) (e :: es) self =
  set_buffer (last_n (Z.to_nat (_buffer_size self)) (_buffer self ++ e :: es)) self.
Proof.
  intros Hc. revert e self Hc. induction es as [|e' es IH]; intros e self Hc.
  - cbn. unfold pushed. destruct (Z.ltb_spec 0 (_buffer_size self)); [reflexivity|lia].
  - cbn [fold_left]. cbn [fold_left] in IH. rewrite IH.
    + unfold pushed. destruct (Z.ltb_spec 0 (_buffer_size self)); [|lia].
      unfold set_buffer. cbn [_buffer _buffer_size _file_path _delimiter].
      rewrite last_n_app by lia.
      rewrite <- app_assoc. reflexivity.
    + destruct (pushed_no_storage e self) as (_ & _ & ->). exact Hc.
Qed.

Lemma fold_pushed_zero (es : list string) (self : HistoryBuffer) :
  _buffer_size self <= 0 ->
  fold_left (fun h e => pushed e h) es self = self.
Proof.
  intros Hc. induction es as [|e es IH]; [reflexivity|].
  cbn [fold_left]. unfold pushed at 2.
  destruct (Z.ltb_spec 0 (_buffer_size self)); [lia|]. exact IH.
Qed.

End HistoryBufferFacts.

(** ** Splitting a log at its separator *)

Module StrFacts.
Import Str RingSpec HistoryBufferFacts.

Lemma prefix_cons (a b : ascii) (p s : string) :
  String.prefix (String a p) (String b s) = true <-> a = b /\ String.prefix p s = true.
Proof.
  cbn. destruct (ascii_dec a b) as [->|Hne]; split; intros H; auto; try discriminate.
  - tauto.
  - destruct H; contradiction.
Qed.

Lemma prefix_app_self (p s : string) : String.prefix p (p +:+ s) = true.
Proof.
  induction p as [|a p IH]; [destruct s; reflexivity|].
  change (String a p +:+ s) with (String a (p +:+ s)). apply prefix_cons. auto.
Qed.

Lemma length_drop (k : nat) (s : string) :
  String.length (drop k s) = (String.length s - k)%nat.
Proof.
  revert s. induction k as [|k IH]; intros s; cbn; [lia|].
  destruct s as [|c s]; cbn; [reflexivity|]. apply IH.
Qed.

(** Where a prefix of [u +:+ s] ends: inside [u], or inside [s] after it has
    gone through all of [u]. *)
Lemma prefix_app_split (p u s : string) :
  String.prefix p (u +:+ s) = true ->
  String.prefix p u = true \/
  ((String.length u < String.length p)%nat /\
   String.prefix (drop (String.length u) p) s = true).
Proof.
  revert p. induction u as [|c u IH]; intros p H.
  - change (EmptyString +:+ s) with s in H.
    destruct p as [|a p]; [left; reflexivity|].
    right. split; [cbn; lia|exact H].
  - destruct p as [|a p]; [left; reflexivity|].
    change (String c u +:+ s) with (String c (u +:+ s)) in H.
    apply prefix_cons in H as [-> H].
    destruct (IH _ H) as [Hl|[Hlen Hr]].
    + left. apply prefix_cons. auto.
    + right. split; [cbn; lia|exact Hr].
Qed.

Lemma prefix_drop (p s : string) :
  String.prefix p s = true -> s = p +:+ drop (String.length p) s.
Proof.
  revert s. induction p as [|a p IH]; intros s H; [reflexivity|].
  destruct s as [|b s]; [discriminate|].
  apply prefix_cons in H as [-> H]. cbn [String.length drop].
  change (String b p +:+ drop (String.length p) s)
    with (String b (p +:+ drop (String.length p) s)).
  f_equal. apply IH, H.
Qed.

Lemma split_go_nonempty (sep : string) (k : nat) (s : string) : split_go sep k s <> [].
Proof.
  revert k. induction s as [|c s IH]; intros k; [discriminate|].
  cbn [split_go]. destruct k as [|k]; [|apply IH].
  destruct (String.prefix sep (String c s)); [discriminate|].
  specialize (IH O). destruct (split_go sep O s); [contradiction|discriminate].
Qed.

Lemma concat_cons_first (sep : string) (c : ascii) (segs : list string) :
  segs <> [] ->
  String.concat sep (cons_first c segs) = String c (String.concat sep segs).
Proof.
  intros Hne. destruct segs as [|seg [|seg' rest]]; [contradiction|reflexivity..].
Qed.

(** Joining the segments of a split with the separator gives the text back:
    [sep.join(s.split(sep)) == s]. *)
Lemma split_go_join (sep : string) (k : nat) (s : string) :
  sep <> EmptyString ->
  String.concat sep (split_go sep k s) = drop k s.
Proof.
  intros Hne. revert k. induction s as [|c s IH]; intros k.
  - destruct k; reflexivity.
  - cbn [split_go]. destruct k as [|k]; [|apply IH].
    destruct (String.prefix sep (String c s)) eqn:Hpre.
    + pose proof (split_go_nonempty sep (String.length sep - 1) s) as Hn.
      pose proof (IH (String.length sep - 1)%nat) as Hj.
      destruct (split_go sep (String.length sep - 1) s) as [|seg rest]; [contradiction|].
      change (String.concat sep (EmptyString :: seg :: rest))
        with (sep +:+ String.concat sep (seg :: rest)).
      rewrite Hj. apply prefix_drop in Hpre.
      destruct sep as [|a sep]; [contradiction|].
      cbn [String.length drop] in *.
      replace (S (String.length sep) - 1)%nat with (String.length sep) by lia.
      symmetry. exact Hpre.
    + rewrite concat_cons_first by apply split_go_nonempty.
      rewrite IH. reflexivity.
Qed.

Lemma split_join (sep s : string) (segs : list string) :
  split sep s = Some segs -> join sep segs = s.
Proof.
  unfold split, join. destruct sep as [|a sep]; [discriminate|].
  intros [= <-]. apply (split_go_join (String a sep) O s). discriminate.
Qed.

Lemma contains_cons (sep : string) (c : ascii) (s : string) :
  contains sep (String c s) = String.prefix sep (String c s) || contains sep s.
Proof. reflexivity. Qed.

Lemma unbordered_spec (sep : string) (k : nat) :
  unbordered sep = true -> (1 <= k < String.length sep)%nat ->
  String.prefix (drop k sep) sep = false.
Proof.
  unfold unbordered. intros H Hk.
  rewrite forallb_forall in H. specialize (H k).
  apply negb_true_iff, H, in_seq. lia.
Qed.

(** Behind an entry that holds no separator, the first separator of the log
    is the one that was written after it. *)
Lemma no_early_match (sep : string) (c : ascii) (u rest : string) :
  unbordered sep = true ->
  contains sep (String c u) = false ->
  String.prefix sep (String c u +:+ sep +:+ rest) = false.
Proof.
  intros Hunb Hclean.
  destruct (String.prefix sep (String c u +:+ sep +:+ rest)) eqn:Hpre; [|reflexivity].
  exfalso. rewrite contains_cons in Hclean. apply orb_false_iff in Hclean as [Hp0 _].
  apply prefix_app_split in Hpre as [Hin|[Hlen Hover]]; [congruence|].
  apply prefix_app_split in Hover as [Hb|[Hlen' _]].
  - rewrite unbordered_spec in Hb; [discriminate|exact Hunb|cbn in *; lia].
  - rewrite length_drop in Hlen'. lia.
Qed.

Lemma split_go_skip (sep x rest : string) :
  split_go sep (String.length x) (x +:+ rest) = split_go sep O rest.
Proof. induction x as [|c x IH]; [reflexivity|exact IH]. Qed.

Lemma split_go_sep (sep rest : string) :
  sep <> EmptyString ->
  split_go sep O (sep +:+ rest) = EmptyString :: split_go sep O rest.
Proof.
  intros Hne. destruct sep as [|a sep]; [contradiction|].
  change (String a sep +:+ rest) with (String a (sep +:+ rest)).
  cbn [split_go]. change (String a (sep +:+ rest)) with (String a sep +:+ rest).
  rewrite prefix_app_self.
  replace (String.length (String a sep) - 1)%nat with (String.length sep)
    by (cbn [String.length]; lia).
  rewrite split_go_skip. reflexivity.
Qed.

Lemma split_go_clean (sep e : string) :
  sep <> EmptyString -> contains sep e = false -> split_go sep O e = [e].
Proof.
  intros Hne. induction e as [|c e IH]; intros Hclean; [reflexivity|].
  rewrite contains_cons in Hclean. apply orb_false_iff in Hclean as [Hp Hc].
  cbn [split_go]. rewrite Hp, (IH Hc). reflexivity.
Qed.

Lemma split_go_entry (sep e rest : string) :
  sep <> EmptyString -> unbordered sep = true -> contains sep e = false ->
  split_go sep O (e +:+ sep +:+ rest) = e :: split_go sep O rest.
Proof.
  intros Hne Hunb. induction e as [|c e IH]; intros Hclean.
  - change (EmptyString +:+ sep +:+ rest) with (sep +:+ rest).
    apply split_go_sep, Hne.
  - pose proof (no_early_match sep c e rest Hunb Hclean) as Hno.
    rewrite contains_cons in Hclean. apply orb_false_iff in Hclean as [_ Hc].
    change (String c e +:+ sep +:+ rest) with (String c (e +:+ sep +:+ rest)) in *.
    cbn [split_go]. rewrite Hno, (IH Hc). reflexivity.
Qed.

Lemma split_go_entries (sep e : string) (es : list string) :
  sep <> EmptyString -> unbordered sep = true ->
  Forall (fun e => contains sep e = false) (e :: es) ->
  split_go sep O (e +:+ log sep es) = e :: es.
Proof.
  intros Hne Hunb. revert e. induction es as [|e' es IH]; intros e Hall.
  - cbn [log]. rewrite append_nil_r. apply split_go_clean; [exact Hne|].
    now inversion Hall.
  - cbn [log]. inversion Hall as [|? ? He Hrest]; subst.
    rewrite split_go_entry by assumption. f_equal. apply IH, Hrest.
Qed.

(** Reading back a log gives the entries that were written to it. *)
Lemma split_log (sep : string) (es : list string) :
  sep <> EmptyString -> unbordered sep = true ->
  Forall (fun e => contains sep e = false) es ->
  split sep (log sep es) = Some (EmptyString :: es).
Proof.
  intros Hne Hunb Hall. unfold split. destruct sep as [|a sep]; [contradiction|].
  f_equal. destruct es as [|e es]; [reflexivity|].
  cbn [log]. rewrite split_go_sep by exact Hne. f_equal.
  apply split_go_entries; assumption.
Qed.

Lemma default_delimiter_unbordered : unbordered default_delimiter = true.
Proof. vm_compute. reflexivity. Qed.

(** A separator that overlaps itself does not give the entries back. *)
Example split_log_bordered :
  contains "aa" "a" = false /\ contains "aa" "b" = false /\
  split "aa" (log "aa" ["a"; "b"]) = Some [""; ""; "ab"].
Proof. repeat split. Qed.

End StrFacts.

(** ** Pushing to a ring with storage, and loading it again *)

Module RoundTrip.
Import Str RingSpec MoreSpec HistoryBuffer HistoryBufferFacts StrFacts TextFacts.

Lemma flush_returns (content path : string) (self self' : HistoryBuffer)
    (fs fs' : gmap string File) :
  _file_path self = Some path ->
  flush_to_file content self fs = (Return tt, self', fs') ->
  appendable path fs = true /\
  Text.utf8_valid (_delimiter self) = true /\ Text.utf8_valid content = true /\
  self' = self /\ fs' = appended path (_delimiter self +:+ content) fs.
Proof.
  intros Hp H. rewrite (flush_to_file_unfold content path self fs Hp) in H.
  unfold appendable. destruct (opening path fs); [discriminate|].
  destruct (Text.utf8_valid (_delimiter self)); [|discriminate].
  destruct (Text.utf8_valid content); [|discriminate].
  injection H as <- <-. auto.
Qed.

Lemma push_storage_inv (content path : string) (self hb' : HistoryBuffer)
    (fs fs' : gmap string File) :
  _file_path self = Some path ->
  push (PStr content) self fs = (Return tt, hb', fs') ->
  contains (_delimiter self) content = false /\
  appendable path fs = true /\
  hb' = pushed content self /\
  fs' = appended path (_delimiter self +:+ content) fs.
Proof.
  intros Hp Hrun. rewrite push_unfold, Hp in Hrun.
  destruct (contains (_delimiter self) content); [discriminate|].
  destruct (pushed_no_storage content self) as (Hp' & Hd' & _).
  apply (flush_returns content path) in Hrun as (Ha & _ & _ & -> & ->); [|congruence].
  rewrite Hd'. auto.
Qed.

(** What a push has written could be encoded. *)
Lemma push_storage_valid (content path : string) (self hb' : HistoryBuffer)
    (fs fs' : gmap string File) :
  _file_path self = Some path ->
  push (PStr content) self fs = (Return tt, hb', fs') ->
  Text.utf8_valid (_delimiter self) = true /\ Text.utf8_valid content = true.
Proof.
  intros Hp Hrun. rewrite push_unfold, Hp in Hrun.
  destruct (contains (_delimiter self) content); [discriminate|].
  destruct (pushed_no_storage content self) as (Hp' & Hd' & _).
  apply (flush_returns content path) in Hrun as (_ & Hd & Hc & _); [|congruence].
  rewrite Hd' in Hd. auto.
Qed.

Lemma push_all_storage_inv (es : list string) (path : string) (self hb' : HistoryBuffer)
    (fs fs' : gmap string File) :
  _file_path self = Some path ->
  push_all es self fs = (Return tt, hb', fs') ->
  Forall (fun e => contains (_delimiter self) e = false) es /\
  hb' = fold_left (fun h e => pushed e h) es self /\
  fs' = fold_left (fun fs e => appended path (_delimiter self +:+ e) fs) es fs /\
  (es <> [] -> appendable path fs = true).
Proof.
  revert self fs. induction es as [|e es IH]; intros self fs Hp Hrun.
  - inversion Hrun; subst. repeat split; [constructor|congruence].
  - cbn [push_all] in Hrun. unfold mbind, M_bind, bind in Hrun.
    destruct (push (PStr e) self fs) as [[[[]|ex] h1] fs1] eqn:Hpush; [|discriminate].
    destruct (push_storage_inv _ _ _ _ _ _ Hp Hpush) as (Hc & Happ & -> & ->).
    destruct (pushed_no_storage e self) as (Hp' & Hd' & _).
    apply IH in Hrun as (Hall & -> & -> & _); [|congruence].
    rewrite Hd' in *. repeat split; [constructor; assumption|exact (fun _ => Happ)].
Qed.

Lemma push_all_storage_valid (es : list string) (path : string) (self hb' : HistoryBuffer)
    (fs fs' : gmap string File) :
  _file_path self = Some path ->
  push_all es self fs = (Return tt, hb', fs') ->
  Forall (fun e => Text.utf8_valid e = true) es /\
  (es <> [] -> Text.utf8_valid (_delimiter self) = true).
Proof.
  revert self fs. induction es as [|e es IH]; intros self fs Hp Hrun.
  - split; [constructor|congruence].
  - cbn [push_all] in Hrun. unfold mbind, M_bind, bind in Hrun.
    destruct (push (PStr e) self fs) as [[[[]|ex] h1] fs1] eqn:Hpush; [|discriminate].
    destruct (push_storage_valid _ _ _ _ _ _ Hp Hpush) as (Hd & He).
    destruct (push_storage_inv _ _ _ _ _ _ Hp Hpush) as (_ & _ & -> & _).
    destruct (pushed_no_storage e self) as (Hp' & _).
    apply IH in Hrun as (Hall & _); [|congruence].
    split; [constructor; assumption|auto].
Qed.

(** The file of the log after the appends. *)
Lemma lookup_appended_fresh (path text : string) (fs : gmap string File) :
  fresh path fs ->
  exists f, appended path text fs !! path = Some f /\
            readable f = true /\ contents f = text.
Proof.
  unfold appended.
  intros [Hf|(f & Hf & Hc & Hr)]; rewrite Hf, lookup_insert_eq; eexists;
    (split; [reflexivity|]); cbn; [auto|].
  rewrite Hc. auto.
Qed.

Lemma lookup_appended (path more : string) (f : File) (fs : gmap string File) :
  fs !! path = Some f ->
  appended path more fs !! path =
  Some (mkFile (contents f +:+ more) (readable f) (writable f)).
Proof. intros Hf. unfold appended. rewrite Hf. apply lookup_insert_eq. Qed.

Lemma lookup_log (path sep : string) (es : list string) (f : File)
    (fs : gmap string File) :
  fs !! path = Some f ->
  exists f',
    fold_left (fun fs e => appended path (sep +:+ e) fs) es fs !! path = Some f' /\
    readable f' = readable f /\ contents f' = contents f +:+ log sep es.
Proof.
  revert f fs. induction es as [|e es IH]; intros f fs Hf.
  - exists f. cbn. rewrite append_nil_r. auto.
  - cbn [fold_left log].
    destruct (IH _ _ (lookup_appended path (sep +:+ e) f fs Hf)) as (f' & Hl & Hr & Hc).
    exists f'. split; [exact Hl|]. cbn in Hr, Hc. split; [exact Hr|].
    rewrite Hc, !append_assoc. reflexivity.
Qed.

Lemma lookup_log_fresh (path sep : string) (es : list string) (fs : gmap string File) :
  fresh path fs -> es <> [] ->
  exists f',
    fold_left (fun fs e => appended path (sep +:+ e) fs) es fs !! path = Some f' /\
    readable f' = true /\ contents f' = log sep es.
Proof.
  intros Hfresh Hne. destruct es as [|e es]; [contradiction|].
  cbn [fold_left log].
  destruct (lookup_appended_fresh path (sep +:+ e) fs Hfresh) as (f & Hf & Hr & Hc).
  destruct (lookup_log path sep es f _ Hf) as (f' & Hl & Hr' & Hc').
  exists f'. split; [exact Hl|]. split; [congruence|].
  rewrite Hc', Hc, append_assoc. reflexivity.
Qed.

Lemma log_valid (sep : string) (es : list string) :
  Text.utf8_valid sep = true -> Forall (fun e => Text.utf8_valid e = true) es ->
  Text.utf8_valid (log sep es) = true.
Proof.
  intros Hs. induction 1 as [|e es He _ IH]; [reflexivity|].
  cbn [log]. repeat apply utf8_valid_app; assumption.
Qed.

Lemma log_no_cr (sep : string) (es : list string) :
  has_char Text.cr sep = false -> Forall (fun e => has_char Text.cr e = false) es ->
  has_char Text.cr (log sep es) = false.
Proof.
  intros Hs. induction 1 as [|e es He _ IH]; [reflexivity|].
  cbn [log]. rewrite !has_char_app, Hs, He, IH. reflexivity.
Qed.

(** A readable file of well-formed text without carriage return is read as
    it stands. *)
Lemma read_text_plain (path : string) (f : File) (fs : gmap string File) :
  fs !! path = Some f -> readable f = true ->
  Text.utf8_valid (contents f) = true -> has_char Text.cr (contents f) = false ->
  read_text path fs = Some (contents f).
Proof.
  intros Hf Hr Hv Hc. unfold read_text.
  rewrite Hf, Hr, Hv, (universal_newlines_id _ Hc). reflexivity.
Qed.

Lemma read_text_log_fresh (path sep : string) (es : list string) (fs : gmap string File) :
  fresh path fs -> es <> [] ->
  Text.utf8_valid sep = true -> Forall (fun e => Text.utf8_valid e = true) es ->
  has_char Text.cr sep = false -> Forall (fun e => has_char Text.cr e = false) es ->
  read_text path (fold_left (fun fs e => appended path (sep +:+ e) fs) es fs) =
  Some (log sep es).
Proof.
  intros Hfresh Hne Hvs Hve Hcs Hce.
  destruct (lookup_log_fresh path sep es fs Hfresh Hne) as (f & Hf & Hr & Hc).
  assert (Hv : Text.utf8_valid (contents f) = true)
    by (rewrite Hc; apply log_valid; assumption).
  assert (Hn : has_char Text.cr (contents f) = false)
    by (rewrite Hc; apply log_no_cr; assumption).
  rewrite (read_text_plain path f _ Hf Hr Hv Hn), Hc. reflexivity.
Qed.

Lemma appendable_nonempty (path : string) (fs : gmap string File) :
  appendable path fs = true -> exists c r, path = String c r.
Proof. destruct path as [|c r]; [discriminate|eauto]. Qed.

Lemma length_nonempty (d : string) : (1 <= String.length d)%nat -> d <> EmptyString.
Proof. destruct d; cbn; [lia|discriminate]. Qed.


End RoundTrip.

(** ** The history ring *)

Section Ring.
Import Str RingSpec MoreSpec HistoryBuffer HistoryBufferFacts StrFacts RoundTrip.

(** C1, as the specification words it, fails: a push that is refused for
    holding the separator has already appended the entry to the in-memory
    sequence. *)
Lemma push_collision_is_partially_applied :
  ~ (forall (c : Z) (path d e : string) (hb hb' : HistoryBuffer)
            (fs fs' : gmap string File),
       0 < c ->
       init (PInt c) (PStr path) (PStr d) fs = Return hb ->
       contains d e = true ->
       push (PStr e) hb fs = (Raise ValueError, hb', fs') ->
       _buffer hb' = _buffer hb).
Proof.
  intros H.
  specialize (H 2 "d/h" "," "a,b" (mkHistoryBuffer (Some "d/h") "," 2 [])
                (mkHistoryBuffer (Some "d/h") "," 2 ["a,b"]) ∅ ∅).
  discriminate H; [lia|reflexivity|reflexivity|reflexivity].
Qed.

(** C1, amended: on a ring with a storage location and a positive capacity, a
    push refused for holding the separator raises the validation error after
    the entry was appended to the in-memory sequence and the sequence cut to
    its last [capacity] entries; the append is not rolled back, and the
    storage location is left as it was. *)
Theorem push_collision_keeps_memory_append (hb : HistoryBuffer) (path e : string)
    (fs : gmap string File) :
  _file_path hb = Some path ->
  0 < _buffer_size hb ->
  contains (_delimiter hb) e = true ->
  push (PStr e) hb fs =
  (Raise ValueError,
   set_buffer (last_n (Z.to_nat (_buffer_size hb)) (_buffer hb ++ [e])) hb,
   fs).
Proof.
  intros Hp Hc He. rewrite push_unfold, Hp, He. unfold pushed.
  destruct (Z.ltb_spec 0 (_buffer_size hb)); [reflexivity|lia].
Qed.

Lemma push_collision_keeps_memory_append_witness :
  push (PStr "b,c") ring_d_h ∅ =
  (Raise ValueError, mkHistoryBuffer (Some "d/h") "," 2 ["a"; "b,c"], ∅).
Proof.
  apply (push_collision_keeps_memory_append ring_d_h "d/h" "b,c" ∅);
    [reflexivity|reflexivity|reflexivity].
Defined.

(** C3: a ring of capacity [c >= 0] without storage, after more than [c]
    pushes, answers [get()] with the last [c] entries pushed, oldest first;
    with [c = 0] the answer is empty. *)
Theorem get_returns_last_capacity_entries (c : Z) (d : string) (es : list string)
    (fs : gmap string File) :
  0 <= c -> (1 <= String.length d)%nat -> c < Z.of_nat (length es) ->
  exists hb hb',
    init (PInt c) PNone (PStr d) fs = Return hb /\
    push_all es hb fs = (Return tt, hb', fs) /\
    get PNone hb' fs = (Return (last_n (Z.to_nat c) es), hb', fs) /\
    (c = 0 -> get PNone hb' fs = (Return [], hb', fs)).
Proof.
  intros Hc Hd Hn.
  exists (mkHistoryBuffer None d c []).
  exists (fold_left (fun h e => pushed e h) es (mkHistoryBuffer None d c [])).
  split; [exact (init_unfold c None d fs Hc Hd)|].
  split; [apply push_all_no_storage; reflexivity|].
  destruct (Z.eq_dec c 0) as [->|Hnz].
  - rewrite fold_pushed_zero by (cbn; lia).
    rewrite last_n_zero. split; [reflexivity|]. intros _. reflexivity.
  - split; [|intros; lia].
    destruct es as [|e es]; [cbn in Hn; lia|].
    rewrite fold_pushed_positive by (cbn; lia).
    cbn [_buffer _buffer_size app].
    rewrite get_default by (cbn; lia). rewrite get_unfold by (cbn; lia).
    cbn [set_buffer _buffer _buffer_size _file_path].
    rewrite orb_true_r. rewrite last_n_all; [reflexivity|].
    rewrite last_n_length. lia.
Qed.

Lemma get_returns_last_capacity_entries_witness :
  exists hb hb',
    init (PInt 2) PNone (PStr default_delimiter) ∅ = Return hb /\
    push_all ["a"; "b"; "c"] hb ∅ = (Return tt, hb', ∅) /\
    get PNone hb' ∅ = (Return ["b"; "c"], hb', ∅) /\
    (2 = 0 -> get PNone hb' ∅ = (Return [], hb', ∅)).
Proof.
  apply (get_returns_last_capacity_entries 2 default_delimiter ["a"; "b"; "c"] ∅);
    [lia|cbn; lia|cbn; lia].
Defined.

(** The scenario of the specification: capacity 2, no storage, three pushes. *)
Example ring_scenario :
  exists hb hb',
    init (PInt 2) PNone (PStr default_delimiter) ∅ = Return hb /\
    push_all ["a"; "b"; "c"] hb ∅ = (Return tt, hb', ∅) /\
    get PNone hb' ∅ = (Return ["b"; "c"], hb', ∅) /\
    get (PInt 1) hb' ∅ = (Return ["c"], hb', ∅) /\
    get (PInt 5) hb' ∅ = (Return ["b"; "c"], hb', ∅) /\
    get (PInt 0) hb' ∅ = (Return [], hb', ∅).
Proof. do 2 eexists. repeat split. Qed.

(** C5: on a ring with a storage location, pushing a string that holds the
    separator raises the validation error and the storage location is left
    as it was: nothing is written, be it cut short or escaped. *)
Theorem push_collision_raises_and_writes_nothing (hb : HistoryBuffer) (path e : string)
    (fs : gmap string File) :
  _file_path hb = Some path ->
  contains (_delimiter hb) e = true ->
  exists hb', push (PStr e) hb fs = (Raise ValueError, hb', fs).
Proof.
  intros Hp He. exists (pushed e hb). rewrite push_unfold, Hp, He. reflexivity.
Qed.

Lemma push_collision_raises_and_writes_nothing_witness :
  exists hb', push (PStr "b,c") ring_d_h ∅ = (Raise ValueError, hb', ∅).
Proof.
  apply (push_collision_raises_and_writes_nothing ring_d_h "d/h" "b,c" ∅);
    [reflexivity|reflexivity].
Defined.

(** C6: on a ring built with capacity 0 over a storage location, a push that
    succeeds appends the separator and then the entry to the storage
    location, and the in-memory sequence stays empty. *)
Theorem push_with_zero_capacity_appends (path d e : string) (hb hb' : HistoryBuffer)
    (fs fs' : gmap string File) :
  init (PInt 0) (PStr path) (PStr d) fs = Return hb ->
  push (PStr e) hb fs = (Return tt, hb', fs') ->
  _buffer hb = [] /\ _buffer hb' = [] /\
  fs' = appended path (d +:+ e) fs /\
  text_at path fs' = text_at path fs +:+ d +:+ e.
Proof.
  intros Hinit Hpush.
  assert (Hhb : hb = mkHistoryBuffer (Some path) d 0 []).
  { destruct d as [|a d]; [discriminate|].
    destruct path; cbn in Hinit; congruence. }
  subst hb.
  apply (push_storage_inv e path) in Hpush as (_ & _ & -> & ->); [|reflexivity].
  cbn [_buffer _delimiter]. repeat split.
  apply text_at_appended.
Qed.

Lemma push_with_zero_capacity_appends_witness :
  exists hb hb' fs',
    init (PInt 0) (PStr "d/h") (PStr ",") ∅ = Return hb /\
    push (PStr "a") hb ∅ = (Return tt, hb', fs') /\
    _buffer hb' = [] /\ text_at "d/h" fs' = ",a".
Proof.
  assert (Hinit : init (PInt 0) (PStr "d/h") (PStr ",") ∅ =
                  Return (mkHistoryBuffer (Some "d/h") "," 0 []))
    by reflexivity.
  assert (Hpush : push (PStr "a") (mkHistoryBuffer (Some "d/h") "," 0 []) ∅ =
                  (Return tt, mkHistoryBuffer (Some "d/h") "," 0 [],
                   <["d/h" := mkFile ",a" true true]> ∅))
    by reflexivity.
  destruct (push_with_zero_capacity_appends "d/h" "," "a" _ _ ∅ _ Hinit Hpush)
    as (_ & Hmem & _ & Htext).
  do 3 eexists. split; [exact Hinit|]. split; [exact Hpush|].
  split; [exact Hmem|exact Htext].
Defined.

(** C7: on a ring with a storage location, [get(max_length)] with
    [max_length] above the number of entries held in memory returns the last
    [max_length] entries read from the storage location, and leaves the ring,
    its in-memory sequence included, as it was. *)
Theorem get_beyond_memory_reads_storage (hb : HistoryBuffer) (path : string) (m : Z)
    (fs : gmap string File) :
  _file_path hb = Some path ->
  Z.of_nat (length (_buffer hb)) < m ->
  get (PInt m) hb fs = (Return (last_n (Z.to_nat m) (read_file hb fs)), hb, fs).
Proof. intros Hp Hm. exact (get_read_through m path hb fs Hp Hm). Qed.

Lemma get_beyond_memory_reads_storage_witness :
  get (PInt 3) (mkHistoryBuffer (Some "d/h") "," 2 ["b"; "c"])
      (<["d/h" := mkFile ",a,b,c" true true]> ∅) =
  (Return ["a"; "b"; "c"], mkHistoryBuffer (Some "d/h") "," 2 ["b"; "c"],
   <["d/h" := mkFile ",a,b,c" true true]> ∅).
Proof.
  rewrite (get_beyond_memory_reads_storage _ "d/h" 3) by (reflexivity || (cbn; lia)).
  reflexivity.
Defined.

(** The entries read through can be entries the ring has dropped from
    memory: after three pushes a ring of capacity 2 holds two of them, and
    [get(3)] returns the three. *)
Example get_beyond_memory_sees_evicted :
  exists hb hb' fs',
    init (PInt 2) (PStr "d/h") (PStr default_delimiter) ∅ = Return hb /\
    push_all ["a"; "b"; "c"] hb ∅ = (Return tt, hb', fs') /\
    _buffer hb' = ["b"; "c"] /\
    get (PInt 3) hb' fs' = (Return ["a"; "b"; "c"], hb', fs').
Proof. do 3 eexists. repeat split. Qed.

(** C8: when the file of the storage location is missing or cannot be read,
    reading it gives the empty sequence and raises nothing: building a ring
    of positive capacity over it succeeds with an empty in-memory sequence,
    [get] on that ring returns the empty sequence whatever length is asked
    for, and so does every [get] of any ring that goes to the location. *)
Theorem unavailable_storage_reads_empty (path d : string) (c : Z) (fs : gmap string File) :
  unavailable path fs ->
  0 < c -> (1 <= String.length d)%nat ->
  (forall hb, _file_path hb = Some path -> read_file hb fs = []) /\
  (exists hb,
     init (PInt c) (PStr path) (PStr d) fs = Return hb /\
     _buffer hb = [] /\
     get PNone hb fs = (Return [], hb, fs) /\
     (forall m, 0 <= m -> get (PInt m) hb fs = (Return [], hb, fs))) /\
  (forall hb m,
     _file_path hb = Some path -> Z.of_nat (length (_buffer hb)) < m ->
     get (PInt m) hb fs = (Return [], hb, fs)).
Proof.
  intros Hu Hc Hd.
  assert (Hread : forall hb, _file_path hb = Some path -> read_file hb fs = [])
    by (intros hb Hp; exact (read_file_unavailable hb path fs Hp Hu)).
  assert (Hthrough : forall hb m,
            _file_path hb = Some path -> Z.of_nat (length (_buffer hb)) < m ->
            get (PInt m) hb fs = (Return [], hb, fs)).
  { intros hb m Hp Hm. rewrite (get_read_through m path hb fs Hp Hm), (Hread hb Hp).
    reflexivity. }
  split; [exact Hread|]. split; [|exact Hthrough].
  exists (mkHistoryBuffer (Some path) d c []).
  assert (Hget : forall m, 0 <= m ->
            get (PInt m) (mkHistoryBuffer (Some path) d c []) fs =
            (Return [], mkHistoryBuffer (Some path) d c [], fs)).
  { intros m Hm. destruct (Z.eq_dec m 0) as [->|Hnz]; [reflexivity|].
    apply Hthrough; [reflexivity|cbn; lia]. }
  split; [|split; [reflexivity|split; [|exact Hget]]].
  - rewrite (init_unfold c (Some path) d fs) by lia.
    destruct path as [|a r]; [reflexivity|].
    destruct (Z.ltb_spec 0 c); [|lia].
    rewrite Hread by reflexivity. reflexivity.
  - rewrite get_default by (cbn; lia). apply Hget. cbn. lia.
Qed.

Lemma unavailable_storage_reads_empty_witness :
  (forall hb, _file_path hb = Some "d/h" -> read_file hb ∅ = []) /\
  (exists hb,
     init (PInt 3) (PStr "d/h") (PStr default_delimiter) ∅ = Return hb /\
     _buffer hb = [] /\
     get PNone hb ∅ = (Return [], hb, ∅) /\
     (forall m, 0 <= m -> get (PInt m) hb ∅ = (Return [], hb, ∅))) /\
  (forall hb m,
     _file_path hb = Some "d/h" -> Z.of_nat (length (_buffer hb)) < m ->
     get (PInt m) hb ∅ = (Return [], hb, ∅)).
Proof.
  apply (unavailable_storage_reads_empty "d/h" default_delimiter 3 ∅);
    [left; reflexivity|lia|cbn; lia].
Defined.

(** C10: on a ring with a storage location and a non-empty in-memory
    sequence, [get(max_length)] with [max_length] above the length of that
    sequence answers from the storage read alone: when the file is missing or
    cannot be read the call returns the empty sequence, and the entries held
    in memory are not used in its place. *)
Theorem get_beyond_memory_never_falls_back (hb : HistoryBuffer) (path : string) (m : Z)
    (fs : gmap string File) :
  _file_path hb = Some path ->
  _buffer hb <> [] ->
  Z.of_nat (length (_buffer hb)) < m ->
  unavailable path fs ->
  get (PInt m) hb fs = (Return [], hb, fs).
Proof.
  intros Hp _ Hm Hu. rewrite (get_read_through m path hb fs Hp Hm).
  rewrite (read_file_unavailable hb path fs Hp Hu). reflexivity.
Qed.

Lemma get_beyond_memory_never_falls_back_witness :
  get (PInt 5) ring_d_h ∅ = (Return [], ring_d_h, ∅).
Proof.
  apply (get_beyond_memory_never_falls_back ring_d_h "d/h" 5 ∅);
    [reflexivity|discriminate|cbn; lia|left; reflexivity].
Defined.




End Ring.

(** ** The translator *)

Section TranslatorFacts.
Import TranslatorSpec HistoryBufferFacts RingSpec.

Variable repr : string -> string.
Variable system_message : Message.

Lemma get_default_returns (hb : HistoryBuffer) (fs : gmap string File) :
  exists entries, HistoryBuffer.get PNone hb fs = (Return entries, hb, fs).
Proof.
  unfold HistoryBuffer.get, mbind, M_bind, bind, get_self, get_fs, ret. cbn.
  destruct (_ =? 0); [eauto|]. destruct (_ || _); eauto.
Qed.

Lemma set_history_buffer_id (self : Translator) :
  set_history_buffer (history_buffer self) self = self.
Proof. destruct self; reflexivity. Qed.

(** [translate] asks the collaborator, computes its result, pushes it to the
    history, and returns it when the push succeeds. *)
Lemma translate_unfold (target il ol : string) (flag : bool) (self : Translator)
    (fs : gmap string File) :
  translate repr system_message target il ol flag self fs =
  match answer_of repr system_message target il ol flag self fs with
  | Raise e => (Raise e, self, fs)
  | Return (PStr text) =>
      let result := mkResult target (extract target text) in
      match HistoryBuffer.push (PStr (str_result repr result)) (history_buffer self) fs with
      | (Return _, hb, fs') => (Return result, set_history_buffer hb self, fs')
      | (Raise e, hb, fs') => (Raise e, set_history_buffer hb self, fs')
      end
  | Return _ => (Raise TypeError, self, fs)
  end.
Proof.
  unfold translate, answer_of, preceding, mbind, M_bind, bind, on_field, get_self, ret, raise.
  destruct flag.
  - destruct (get_default_returns (history_buffer self) fs) as (entries & ->).
    rewrite set_history_buffer_id. cbn [fst snd].
    destruct (chat_model self _) as [[| |text|]|e]; try reflexivity.
    destruct (HistoryBuffer.push _ _ _) as [[[[]|e] hb] fs']; reflexivity.
  - destruct (chat_model self _) as [[| |text|]|e]; try reflexivity.
    destruct (HistoryBuffer.push _ _ _) as [[[[]|e] hb] fs']; reflexivity.
Qed.

Lemma translate_result (target il ol : string) (flag : bool) (self self' : Translator)
    (fs fs' : gmap string File) (r : Result) :
  translate repr system_message target il ol flag self fs = (Return r, self', fs') ->
  r = mkResult target (extract target (reply repr system_message target il ol flag self fs)).
Proof.
  rewrite translate_unfold. unfold reply.
  destruct (answer_of _ _ _ _ _ _ _ _) as [[| |text|]|e]; try discriminate.
  cbv zeta.
  destruct (HistoryBuffer.push _ _ _) as [[[[]|e] hb] fs'']; [|discriminate].
  intros [= <- _ _]. reflexivity.
Qed.

(** Without storage the push cannot fail, and [translate] returns when the
    collaborator has answered with a text. *)
Lemma translate_returns (target il ol text : string) (flag : bool) (self : Translator)
    (fs : gmap string File) :
  _file_path (history_buffer self) = None ->
  answer_of repr system_message target il ol flag self fs = Return (PStr text) ->
  exists self',
    translate repr system_message target il ol flag self fs =
    (Return (mkResult target (extract target text)), self', fs).
Proof.
  intros Hp Ha. rewrite translate_unfold, Ha. cbv zeta. rewrite push_unfold, Hp. eauto.
Qed.

(** [Translator(chat_model)], with its default arguments, builds a translator
    without storage. *)
Lemma answering_constructed (answer : string) (fs : gmap string File) :
  Translator_init (fun _ => Return (PStr answer)) (PInt default_buffer_size) PNone fs =
  Return (answering answer).
Proof. reflexivity. Qed.

Lemma collect_texts (matched_jsons texts acc : list string) :
  Forall2 field_text matched_jsons texts ->
  collect matched_jsons acc = Some (acc ++ texts).
Proof.
  intros H. revert acc. induction H as [|js text jss texts (pairs & Hl & Hg) _ IH]; intros acc.
  - cbn. rewrite app_nil_r. reflexivity.
  - cbn [collect]. rewrite Hl, Hg, IH, <- app_assoc. reflexivity.
Qed.

Lemma extract_texts (target answer : string) (texts : list string) :
  Forall2 field_text (Re.findall answer) texts ->
  extract target answer = Str.join (String newline EmptyString) texts.
Proof. intros H. unfold extract. rewrite (collect_texts _ texts []); [reflexivity|exact H]. Qed.

(** No fragment matched: the join of nothing, and not the input text. *)
Lemma extract_no_fragment (target answer : string) :
  Re.findall answer = [] -> extract target answer = EmptyString.
Proof. intros H. unfold extract. rewrite H. reflexivity. Qed.

(** A first fragment that does not decode: the input text. *)
Lemma extract_bad_fragment (target answer js : string) (rest : list string) :
  Re.findall answer = js :: rest -> Json.loads js = None ->
  extract target answer = target.
Proof. intros H Hl. unfold extract. rewrite H. cbn. rewrite Hl. reflexivity. Qed.

(** Any fragment that does not decode to an object with the string field
    sends [translate] back to the input text. *)
Lemma collect_bad (matched_jsons acc : list string) :
  Exists (fun js => forall text, ~ field_text js text) matched_jsons ->
  collect matched_jsons acc = None.
Proof.
  intros H. revert acc. induction matched_jsons as [|js rest IH]; intros acc.
  - inversion H.
  - cbn [collect].
    destruct (Json.loads js) as [[| | | | |pairs]|] eqn:Hl; try reflexivity.
    destruct (Json.dict_get "translated_text" pairs) as [[| | |text| |]|] eqn:Hg;
      try reflexivity.
    apply IH. inversion H as [? ? Hbad|]; subst; [|assumption].
    exfalso. apply (Hbad text). exists pairs. auto.
Qed.

Lemma extract_falls_back (target answer : string) :
  Exists (fun js => forall text, ~ field_text js text) (Re.findall answer) ->
  extract target answer = target.
Proof. intros H. unfold extract. rewrite collect_bad by exact H. reflexivity. Qed.

End TranslatorFacts.

Section TranslatorClaims.
Import TranslatorSpec.

(** C2 does not hold of the code.  The reply [hello] holds no JSON object;
    the pattern finds no fragment in it, the loop leaves the list of texts
    empty, and [translate] returns the empty text where the fallback was to
    give back the input text [hi]. *)
Theorem translate_reply_without_fragment (repr : string -> string) (system_message : Message) :
  Json.loads "hello" = None /\
  Re.findall "hello" = [] /\
  exists self',
    translate repr system_message "hi" "en" "fr" true (answering "hello") ∅ =
    (Return (mkResult "hi" EmptyString), self', ∅) /\
    translated_text (mkResult "hi" EmptyString) <> "hi".
Proof.
  split; [reflexivity|]. split; [reflexivity|].
  destruct (translate_returns repr system_message "hi" "en" "fr" "hello" true
              (answering "hello") ∅ eq_refl eq_refl) as (self' & H).
  exists self'. split; [exact H|discriminate].
Qed.

(** C9: when every fragment that the pattern finds in the reply decodes to
    an object whose [translated_text] is a string, the result of [translate]
    has for [translated_text] these strings joined by newlines; for the reply
    [bonjour_reply] it is [bonjour]. *)
Theorem translate_joins_fragment_texts (repr : string -> string) (system_message : Message)
    (target il ol : string) (flag : bool) (self self' : Translator)
    (fs fs' : gmap string File) (r : Result) :
  translate repr system_message target il ol flag self fs = (Return r, self', fs') ->
  (forall texts,
     Forall2 field_text (Re.findall (reply repr system_message target il ol flag self fs)) texts ->
     translated_text r = Str.join (String newline EmptyString) texts) /\
  (reply repr system_message target il ol flag self fs = bonjour_reply ->
   translated_text r = "bonjour").
Proof.
  intros Hrun. apply translate_result in Hrun. subst r. cbn [translated_text].
  split.
  - intros texts H. apply extract_texts, H.
  - intros ->. reflexivity.
Qed.

Lemma translate_joins_fragment_texts_witness :
  exists self',
    translate quoted (SystemMessage "") "hello" "en" "fr" true (answering bonjour_reply) ∅ =
    (Return (mkResult "hello" "bonjour"), self', ∅) /\
    translated_text (mkResult "hello" "bonjour") =
    Str.join (String newline EmptyString) ["bonjour"] /\
    translated_text (mkResult "hello" "bonjour") = "bonjour".
Proof.
  eexists.
  assert (Hrun : translate quoted (SystemMessage "") "hello" "en" "fr" true
                   (answering bonjour_reply) ∅ =
                 (Return (mkResult "hello" "bonjour"),
                  mkTranslator (fun _ => Return (PStr bonjour_reply))
                    (mkHistoryBuffer None default_delimiter default_buffer_size
                       ["{'original_text': 'hello', 'translated_text': 'bonjour'}"]),
                  ∅)) by reflexivity.
  split; [exact Hrun|].
  destruct (translate_joins_fragment_texts quoted (SystemMessage "") "hello" "en" "fr" true
              _ _ ∅ ∅ _ Hrun) as [Hjoin Hbonjour].
  split.
  - apply Hjoin. constructor; [|constructor].
    exists [("translated_text", JString "bonjour")]. split; reflexivity.
  - apply Hbonjour. reflexivity.
Defined.

End TranslatorClaims.

(** * Further properties *)

(** ** The ring: construction, invariants, outcomes *)

Module MoreRingFacts.
Import Str RingSpec MoreSpec HistoryBuffer HistoryBufferFacts StrFacts RoundTrip.

Lemma init_inv (bs fp d : pyval) (fs : gmap string File) (hb : HistoryBuffer) :
  init bs fp d fs = Return hb ->
  exists (c : Z) (path : option string) (delim : string),
    bs = PInt c /\ 0 <= c /\ d = PStr delim /\ (1 <= String.length delim)%nat /\
    fp = match path with Some p => PStr p | None => PNone end /\
    _file_path hb = path /\ _delimiter hb = delim /\ _buffer_size hb = c /\
    init (PInt c) fp (PStr delim) fs = Return hb.
Proof.
  intros H. destruct bs as [|c| |]; try discriminate.
  destruct d as [| |delim|]; try (destruct fp; cbn in H; destruct (c <? 0); discriminate).
  assert (Hc : 0 <= c) by (cbn in H; destruct (Z.ltb_spec c 0); [discriminate|lia]).
  assert (Hd : (1 <= String.length delim)%nat).
  { destruct delim; [|cbn; lia]. destruct fp; cbn in H; destruct (c <? 0); discriminate. }
  destruct fp as [| |p|].
  - exists c, None, delim. rewrite (init_unfold c None delim fs Hc Hd) in H.
    injection H as <-. rewrite (init_unfold c None delim fs Hc Hd). repeat split; auto.
  - cbn in H. destruct (c <? 0); discriminate.
  - exists c, (Some p), delim. rewrite (init_unfold c (Some p) delim fs Hc Hd) in H.
    injection H as <-. rewrite (init_unfold c (Some p) delim fs Hc Hd). repeat split; auto.
  - cbn in H. destruct (c <? 0); discriminate.
Qed.

(** The ring after a push, whatever the outcome. *)
Lemma push_state (content : pyval) (hb : HistoryBuffer) (fs : gmap string File) :
  (push content hb fs).1.2 =
  match content with
  | PStr e => pushed e hb
  | _ => hb
  end.
Proof.
  destruct content as [| |e|]; try reflexivity.
  rewrite push_unfold. destruct (_file_path hb) as [p|] eqn:Hp; [|reflexivity].
  destruct (contains _ _); [reflexivity|].
  destruct (pushed_no_storage e hb) as (Hp' & _).
  rewrite (flush_to_file_unfold e p) by congruence.
  destruct (opening _ _); [reflexivity|].
  destruct (Text.utf8_valid (_delimiter _)); [|reflexivity].
  destruct (Text.utf8_valid e); reflexivity.
Qed.



Lemma get_state (m : pyval) (hb : HistoryBuffer) (fs : gmap string File) :
  (get m hb fs).1.2 = hb /\ (get m hb fs).2 = fs.
Proof.
  unfold get, mbind, M_bind, bind, get_self, get_fs, ret, raise.
  destruct m as [|n| |]; cbn; auto.
  - destruct (_ =? 0); cbn; auto. destruct (_ || _); cbn; auto.
  - destruct (n <? 0); cbn; auto. destruct (n =? 0); cbn; auto.
    destruct (_ || _); cbn; auto.
Qed.

Lemma pushed_within (e : string) (hb : HistoryBuffer) :
  Z.of_nat (length (_buffer hb)) <= _buffer_size hb ->
  Z.of_nat (length (_buffer (pushed e hb))) <= _buffer_size (pushed e hb).
Proof.
  intros H. unfold pushed. destruct (Z.ltb_spec 0 (_buffer_size hb)); [|exact H].
  cbn [set_buffer _buffer _buffer_size]. rewrite last_n_length. lia.
Qed.

Lemma last_n_last_n {A : Type} (m n : nat) (l : list A) :
  (m <= n)%nat -> last_n m (last_n n l) = last_n m l.
Proof.
  intros Hmn. unfold last_n at 1. rewrite last_n_length. unfold last_n.
  rewrite skipn_skipn. f_equal. lia.
Qed.

Lemma read_file_fresh (hb : HistoryBuffer) (path : string) (fs : gmap string File) :
  _file_path hb = Some path -> fresh path fs -> read_file hb fs = [].
Proof.
  intros Hp Hf. unfold read_file, read_text. rewrite Hp.
  destruct Hf as [->|(f & -> & Hc & ->)]; [reflexivity|].
  rewrite Hc. unfold split. destruct (_delimiter hb); reflexivity.
Qed.

Lemma upto_last_slash_none (p : string) :
  has_char slash p = false -> upto_last_slash p = EmptyString.
Proof.
  induction p as [|c p IH]; [reflexivity|]. cbn [has_char upto_last_slash].
  intros H. apply orb_false_iff in H as [Hc Hp]. rewrite (IH Hp), Hc. reflexivity.
Qed.

Lemma dirname_none (p : string) : has_char slash p = false -> dirname p = EmptyString.
Proof. intros H. unfold dirname. rewrite (upto_last_slash_none p H). reflexivity. Qed.

Lemma fold_pushed_config (es : list string) (hb : HistoryBuffer) :
  _file_path (fold_left (fun h e => pushed e h) es hb) = _file_path hb /\
  _delimiter (fold_left (fun h e => pushed e h) es hb) = _delimiter hb /\
  _buffer_size (fold_left (fun h e => pushed e h) es hb) = _buffer_size hb.
Proof.
  revert hb. induction es as [|e es IH]; intros hb; [auto|].
  cbn [fold_left]. destruct (IH (pushed e hb)) as (-> & -> & ->).
  apply pushed_no_storage.
Qed.

Lemma fold_pushed_buffer (es : list string) (hb : HistoryBuffer) :
  es <> [] ->
  _buffer (fold_left (fun h e => pushed e h) es hb) =
  if 0 <? _buffer_size hb
  then last_n (Z.to_nat (_buffer_size hb)) (_buffer hb ++ es)
  else _buffer hb.
Proof.
  intros Hne. destruct es as [|e es]; [contradiction|].
  destruct (Z.ltb_spec 0 (_buffer_size hb)).
  - rewrite fold_pushed_positive by assumption. reflexivity.
  - rewrite fold_pushed_zero by assumption. reflexivity.
Qed.

Lemma read_file_config (hb1 hb2 : HistoryBuffer) (fs : gmap string File) :
  _file_path hb1 = _file_path hb2 -> _delimiter hb1 = _delimiter hb2 ->
  read_file hb1 fs = read_file hb2 fs.
Proof. intros Hp Hd. unfold read_file. rewrite Hp, Hd. reflexivity. Qed.

End MoreRingFacts.

Section MoreRing.
Import Str RingSpec MoreSpec HistoryBuffer HistoryBufferFacts StrFacts RoundTrip MoreRingFacts.

(** X1: every ring that a program can hold, built by [__init__] and used
    through any calls of [push] and [get], failed ones included, has a
    capacity that is not negative, holds at most that many entries in memory,
    and has a separator that is not empty. *)
Theorem constructed_within_capacity (hb : HistoryBuffer) :
  constructed hb ->
  0 <= _buffer_size hb /\
  Z.of_nat (length (_buffer hb)) <= _buffer_size hb /\
  (1 <= String.length (_delimiter hb))%nat.
Proof.
  induction 1 as [bs fp d fs hb Hinit|content hb hb' fs fs' r _ IH Hpush
                 |m hb hb' fs fs' r _ IH Hget].
  - destruct (init_inv _ _ _ _ _ Hinit) as (c & path & delim & _ & Hc & _ & Hd & -> & _ & Hdl & Hsz & Hi).
    rewrite Hdl, Hsz. split; [exact Hc|]. split; [|exact Hd].
    rewrite (init_unfold c path delim fs Hc Hd) in Hi. injection Hi as <-.
    cbn [_buffer]. destruct path as [[|a p]|]; cbn [length]; try lia.
    destruct (0 <? c); cbn [length]; [|lia]. rewrite last_n_length. lia.
  - pose proof (push_state content hb fs) as Hst. rewrite Hpush in Hst. cbn in Hst. subst hb'.
    destruct content as [| |e|]; try exact IH.
    destruct IH as (Hc & Hlen & Hd).
    destruct (pushed_no_storage e hb) as (_ & Hdl & Hsz).
    pose proof (pushed_within e hb Hlen) as Hw. rewrite Hdl. rewrite Hsz in *. auto.
  - destruct (get_state m hb fs) as [Hst _]. rewrite Hget in Hst. cbn in Hst. subst hb'.
    exact IH.
Qed.

Lemma constructed_within_capacity_witness :
  0 <= 2 /\ Z.of_nat (length ["a"; "b,c"]) <= 2 /\ (1 <= String.length ",")%nat.
Proof.
  apply (constructed_within_capacity (mkHistoryBuffer (Some "d/h") "," 2 ["a"; "b,c"])).
  apply (constructed_push (PStr "b,c") ring_d_h _ ∅ ∅ (Raise ValueError)); [|reflexivity].
  apply (constructed_push (PStr "a") (mkHistoryBuffer (Some "d/h") "," 2 []) _
           ∅ (<["d/h" := mkFile ",a" true true]> ∅) (Return tt)); [|reflexivity].
  apply (constructed_init (PInt 2) (PStr "d/h") (PStr ",") ∅). reflexivity.
Defined.

(** X2: [__init__] returns a ring exactly when the capacity is an integer
    that is not negative, the location is absent or a string, and the
    separator is a string that is not empty; a bad capacity raises
    [TypeError] before anything else is looked at, a bad location or
    separator raises [ValueError], and the state of the file system never
    makes construction fail. *)
Theorem init_outcome (bs fp d : pyval) (fs : gmap string File) :
  ((exists hb, init bs fp d fs = Return hb) <->
   valid_buffer_size bs && valid_file_path fp && valid_delimiter d = true) /\
  (init bs fp d fs = Raise TypeError <-> valid_buffer_size bs = false) /\
  (init bs fp d fs = Raise ValueError <->
   valid_buffer_size bs = true /\ valid_file_path fp && valid_delimiter d = false) /\
  init bs fp d fs <> Raise OSError.
Proof.
  destruct bs as [|c| |];
    try (cbn; repeat split; try intros [hb ?]; try intros [? ?];
         intros; try discriminate; reflexivity).
  unfold init, valid_buffer_size.
  destruct (Z.ltb_spec c 0) as [Hneg|Hpos];
    destruct (Z.leb_spec 0 c) as [Hle|Hgt]; try lia.
  - repeat split; try intros [hb ?]; try intros [? ?]; intros; try discriminate; reflexivity.
  - destruct fp as [| |p|], d as [| |[|a delim]|]; cbn;
      repeat match goal with
             | |- context [match ?x with EmptyString => _ | String _ _ => _ end] => destruct x
             | |- context [if ?b then _ else _] => destruct b
             end;
      repeat split; try intros [hb ?]; try intros [? ?]; intros;
        try discriminate; try reflexivity; eauto.
Qed.



(** X4: [get] only reads.  Whatever it is asked, it hands back the ring and
    the file system as they were; it raises exactly when [max_length] is
    neither absent nor an integer that is not negative, and then it raises
    [ValueError]. *)
Theorem get_only_reads (m : pyval) (hb : HistoryBuffer) (fs : gmap string File) :
  exists r,
    get m hb fs = (r, hb, fs) /\
    (r = Raise ValueError <-> valid_max_length m = false) /\
    (forall e, r = Raise e -> e = ValueError).
Proof.
  unfold get, mbind, M_bind, bind, get_self, get_fs, ret, raise, valid_max_length.
  destruct m as [|n| |]; cbn.
  - destruct (_ =? 0); [|destruct (_ || _)]; eexists; (split; [reflexivity|]);
      split; try split; intros; discriminate.
  - destruct (Z.ltb_spec n 0); destruct (Z.leb_spec 0 n); try lia; cbn.
    + eexists. split; [reflexivity|]. split; [tauto|]. intros e [= <-]. reflexivity.
    + destruct (n =? 0); [|destruct (_ || _)]; eexists; (split; [reflexivity|]);
        split; try split; intros; discriminate.
  - eexists. split; [reflexivity|]. split; [tauto|]. intros e [= <-]. reflexivity.
  - eexists. split; [reflexivity|]. split; [tauto|]. intros e [= <-]. reflexivity.
Qed.

End MoreRing.

Section MoreRingReads.
Import Str RingSpec MoreSpec HistoryBuffer HistoryBufferFacts StrFacts RoundTrip MoreRingFacts.

(** X5: [get] never returns more than it was asked for: at most
    [max_length] entries, and at most [capacity] entries when [max_length]
    is absent. *)
Theorem get_length_bound (m : pyval) (hb hb' : HistoryBuffer) (fs fs' : gmap string File)
    (l : list string) :
  0 <= _buffer_size hb ->
  get m hb fs = (Return l, hb', fs') ->
  Z.of_nat (length l) <= match m with PInt n => n | _ => _buffer_size hb end.
Proof.
  intros Hsz H.
  assert (Hint : forall n, get (PInt n) hb fs = (Return l, hb', fs') ->
                           Z.of_nat (length l) <= n).
  { intros n Hn. destruct (Z.lt_trichotomy n 0) as [Hneg|[->|Hpos]].
    - unfold get, mbind, M_bind, bind, get_self, raise in Hn. cbn in Hn.
      destruct (Z.ltb_spec n 0); [discriminate|lia].
    - rewrite get_zero in Hn. injection Hn as <- _ _. cbn. lia.
    - rewrite get_unfold in Hn by exact Hpos. injection Hn as <- _ _.
      destruct (_ || _); rewrite last_n_length; lia. }
  destruct m as [|n| |].
  - rewrite get_default in H by exact Hsz. apply Hint, H.
  - apply Hint, H.
  - discriminate.
  - discriminate.
Qed.

Lemma get_length_bound_witness : Z.of_nat (length ["c"]) <= 1.
Proof.
  apply (get_length_bound (PInt 1) (mkHistoryBuffer None "," 2 ["b"; "c"])
           (mkHistoryBuffer None "," 2 ["b"; "c"]) ∅ ∅ ["c"]); [cbn; lia|reflexivity].
Defined.

(** X6: [get(max_length)] answers from memory alone, and does not look at the
    storage location, when the ring holds at least [max_length] entries or
    has no storage: it returns the last [max_length] entries held in memory,
    all of them when there are fewer, and none for [max_length = 0]. *)
Theorem get_from_memory (m : Z) (hb : HistoryBuffer) (fs : gmap string File) :
  0 <= m ->
  m <= Z.of_nat (length (_buffer hb)) \/ _file_path hb = None ->
  get (PInt m) hb fs = (Return (last_n (Z.to_nat m) (_buffer hb)), hb, fs).
Proof.
  intros Hm Hcase. destruct (Z.eq_dec m 0) as [->|Hnz].
  - rewrite get_zero, last_n_zero. reflexivity.
  - rewrite get_unfold by lia. destruct Hcase as [Hle| ->].
    + destruct (Z.leb_spec m (Z.of_nat (length (_buffer hb)))); [reflexivity|lia].
    + rewrite orb_true_r. reflexivity.
Qed.

Lemma get_from_memory_witness :
  get (PInt 5) (mkHistoryBuffer None "," 2 ["b"; "c"]) ∅ =
  (Return ["b"; "c"], mkHistoryBuffer None "," 2 ["b"; "c"], ∅).
Proof.
  apply (get_from_memory 5 (mkHistoryBuffer None "," 2 ["b"; "c"]) ∅);
    [lia|right; reflexivity].
Defined.

(** X7: a push that returns on a ring with storage, whatever its capacity,
    appends the separator and then the entry to the file of the ring and to
    nothing else: the text of the file grows by exactly these two at its
    end, and every other file is left as it was. *)
Theorem push_appends_exactly (path e : string) (hb hb' : HistoryBuffer)
    (fs fs' : gmap string File) :
  _file_path hb = Some path ->
  push (PStr e) hb fs = (Return tt, hb', fs') ->
  text_at path fs' = text_at path fs +:+ _delimiter hb +:+ e /\
  (forall q, q <> path -> fs' !! q = fs !! q) /\
  contains (_delimiter hb) e = false.
Proof.
  intros Hp H. apply (push_storage_inv e path) in H as (Hc & _ & _ & ->); [|exact Hp].
  split; [apply text_at_appended|]. split; [|exact Hc].
  intros q Hq. apply appended_other, Hq.
Qed.

Lemma push_appends_exactly_witness :
  text_at "d/h" (<["d/h" := mkFile "x,a" true true]> ∅) =
  text_at "d/h" (<["d/h" := mkFile "x" true true]> ∅) +:+ "," +:+ "a" /\
  (forall q, q <> "d/h" ->
     (<["d/h" := mkFile "x,a" true true]> ∅ : gmap string File) !! q =
     (<["d/h" := mkFile "x" true true]> ∅ : gmap string File) !! q) /\
  contains "," "a" = false.
Proof.
  assert (Hpush : push (PStr "a") (mkHistoryBuffer (Some "d/h") "," 2 [])
                    (<["d/h" := mkFile "x" true true]> ∅) =
                  (Return tt, mkHistoryBuffer (Some "d/h") "," 2 ["a"],
                   <["d/h" := mkFile "x,a" true true]> ∅)) by reflexivity.
  exact (push_appends_exactly "d/h" "a" (mkHistoryBuffer (Some "d/h") "," 2 []) _ _ _
           eq_refl Hpush).
Defined.

(** X8: the ring and its log agree.  Build a ring of any capacity over a
    fresh location, with a separator that does not overlap itself, and push
    entries with success, where neither the separator nor an entry holds a
    carriage return (reading translates it): [get(m)] then returns the last
    [m] entries pushed, for every [m], from memory or through the log; and a
    ring built afterwards over the same location answers every [get(m)] the
    same. *)
Theorem get_returns_last_pushed (c m : Z) (path d : string) (es : list string)
    (hb hb' : HistoryBuffer) (fs fs' : gmap string File) :
  0 <= c -> 0 <= m -> unbordered d = true -> fresh path fs -> es <> [] ->
  has_char Text.cr d = false -> Forall (fun e => has_char Text.cr e = false) es ->
  init (PInt c) (PStr path) (PStr d) fs = Return hb ->
  push_all es hb fs = (Return tt, hb', fs') ->
  get (PInt m) hb' fs' = (Return (last_n (Z.to_nat m) es), hb', fs') /\
  exists hb2,
    init (PInt c) (PStr path) (PStr d) fs' = Return hb2 /\
    get (PInt m) hb2 fs' = (Return (last_n (Z.to_nat m) es), hb2, fs').
Proof.
  intros Hc Hm Hunb Hfresh Hne Hcrd Hcre Hinit Hrun.
  destruct (init_inv _ _ _ _ _ Hinit)
    as (c0 & path0 & d0 & [= <-] & _ & [= <-] & Hd & _ & Hp1 & Hd1 & Hs1 & _).
  clear path0 Hp1.
  rewrite (init_unfold c (Some path) d fs Hc Hd) in Hinit.
  assert (Hempty : read_file (mkHistoryBuffer (Some path) d c []) fs = [])
    by (apply (read_file_fresh _ path); [reflexivity|exact Hfresh]).
  rewrite Hempty in Hinit.
  assert (Hhb : hb = mkHistoryBuffer (Some path) d c []).
  { injection Hinit as <-. f_equal. destruct path as [|a r]; [reflexivity|].
    destruct (0 <? c); reflexivity. }
  clear Hinit. subst hb.
  pose proof Hrun as Hrun'.
  apply (push_all_storage_valid es path) in Hrun' as (Hve & Hvd); [|reflexivity].
  specialize (Hvd Hne).
  apply (push_all_storage_inv es path) in Hrun as (Hall & -> & -> & Happ); [|reflexivity].
  cbn [_delimiter] in *.
  set (hb' := fold_left (fun h e => pushed e h) es (mkHistoryBuffer (Some path) d c [])).
  set (fs' := fold_left (fun fs e => appended path (d +:+ e) fs) es fs).
  destruct (fold_pushed_config es (mkHistoryBuffer (Some path) d c [])) as (Hp' & Hd' & Hs').
  fold hb' in Hp', Hd', Hs'. cbn in Hp', Hd', Hs'.
  pose proof (fold_pushed_buffer es (mkHistoryBuffer (Some path) d c []) Hne) as Hb'.
  fold hb' in Hb'. cbn [_buffer _buffer_size app] in Hb'.
  assert (Hread : forall hb0, _file_path hb0 = Some path -> _delimiter hb0 = d ->
                              read_file hb0 fs' = es).
  { intros hb0 Hp0 Hd0. unfold read_file, fs'. rewrite Hp0, Hd0.
    rewrite read_text_log_fresh by assumption.
    rewrite split_log by (try apply length_nonempty; assumption).
    apply slice_from_one. }
  assert (Hget : forall hb0,
            _file_path hb0 = Some path -> _delimiter hb0 = d ->
            _buffer hb0 = (if 0 <? c then last_n (Z.to_nat c) es else []) ->
            get (PInt m) hb0 fs' = (Return (last_n (Z.to_nat m) es), hb0, fs')).
  { intros hb0 Hp0 Hd0 Hb0. destruct (Z.eq_dec m 0) as [->|Hnz].
    - rewrite get_zero, last_n_zero. reflexivity.
    - rewrite get_unfold by lia. rewrite Hp0, (Hread hb0 Hp0 Hd0), orb_false_r.
      destruct (Z.leb_spec m (Z.of_nat (length (_buffer hb0)))) as [Hle|Hgt]; [|reflexivity].
      rewrite Hb0 in *. destruct (Z.ltb_spec 0 c); [|cbn in Hle; lia].
      rewrite last_n_length in Hle. rewrite last_n_last_n by lia. reflexivity. }
  split; [apply Hget; assumption|].
  destruct (appendable_nonempty _ _ (Happ Hne)) as (a & r & Hpath).
  exists (mkHistoryBuffer (Some path) d c (if 0 <? c then last_n (Z.to_nat c) es else [])).
  split; [|apply Hget; reflexivity].
  rewrite (init_unfold c (Some path) d fs' Hc Hd).
  rewrite (Hread (mkHistoryBuffer (Some path) d c [])) by reflexivity.
  rewrite Hpath. reflexivity.
Qed.

Lemma get_returns_last_pushed_witness :
  exists hb hb' fs' hb2,
    init (PInt 2) (PStr "d/h") (PStr default_delimiter) ∅ = Return hb /\
    push_all ["a"; "b"; "c"] hb ∅ = (Return tt, hb', fs') /\
    get (PInt 5) hb' fs' = (Return ["a"; "b"; "c"], hb', fs') /\
    init (PInt 2) (PStr "d/h") (PStr default_delimiter) fs' = Return hb2 /\
    get (PInt 5) hb2 fs' = (Return ["a"; "b"; "c"], hb2, fs').
Proof.
  assert (Hfresh : fresh "d/h" ∅) by (left; reflexivity).
  assert (Hinit : init (PInt 2) (PStr "d/h") (PStr default_delimiter) ∅ =
                  Return (mkHistoryBuffer (Some "d/h") default_delimiter 2 []))
    by reflexivity.
  assert (Hrun : push_all ["a"; "b"; "c"]
                   (mkHistoryBuffer (Some "d/h") default_delimiter 2 []) ∅ =
                 (Return tt, mkHistoryBuffer (Some "d/h") default_delimiter 2 ["b"; "c"],
                  <["d/h" := mkFile (log default_delimiter ["a"; "b"; "c"]) true true]> ∅))
    by reflexivity.
  assert (Hne : ["a"; "b"; "c"] <> ([] : list string)) by discriminate.
  assert (Hcre : Forall (fun e => has_char Text.cr e = false) ["a"; "b"; "c"])
    by (repeat constructor).
  destruct (get_returns_last_pushed 2 5 "d/h" default_delimiter ["a"; "b"; "c"] _ _ ∅ _
              ltac:(lia) ltac:(lia) default_delimiter_unbordered Hfresh Hne eq_refl Hcre
              Hinit Hrun)
    as (Hg & hb2 & Hi2 & Hg2).
  do 3 eexists. exists hb2.
  split; [exact Hinit|]. split; [exact Hrun|]. split; [exact Hg|]. split; assumption.
Defined.

End MoreRingReads.

Section MoreRingLog.
Import Str RingSpec MoreSpec HistoryBuffer HistoryBufferFacts StrFacts RoundTrip MoreRingFacts.

(** X9: [__read_file] ignores what stands in the file before the first
    separator.  Over a readable file of well-formed text without carriage
    return, that holds some text without separator and then a log of
    entries, with a separator that does not overlap itself, it returns the
    entries and nothing of the text before them. *)
Theorem read_file_ignores_head (hb : HistoryBuffer) (path head : string)
    (es : list string) (f : File) (fs : gmap string File) :
  _file_path hb = Some path ->
  _delimiter hb <> EmptyString ->
  unbordered (_delimiter hb) = true ->
  contains (_delimiter hb) head = false ->
  Forall (fun e => contains (_delimiter hb) e = false) es ->
  fs !! path = Some f -> readable f = true ->
  Text.utf8_valid (contents f) = true ->
  has_char Text.cr (contents f) = false ->
  contents f = head +:+ log (_delimiter hb) es ->
  read_file hb fs = es.
Proof.
  intros Hp Hne Hunb Hhead Hall Hf Hr Hv Hcr Hc.
  unfold read_file. rewrite Hp, (read_text_plain path f fs Hf Hr Hv Hcr), Hc. unfold split.
  destruct (_delimiter hb) as [|a d] eqn:Hd; [contradiction|].
  rewrite split_go_entries; [apply slice_from_one|discriminate|exact Hunb|].
  constructor; assumption.
Qed.

Lemma read_file_ignores_head_witness :
  read_file (mkHistoryBuffer (Some "d/h") "," 2 [])
    (<["d/h" := mkFile "old text,a,b" true true]> ∅) = ["a"; "b"].
Proof.
  apply (read_file_ignores_head _ "d/h" "old text" ["a"; "b"]
           (mkFile "old text,a,b" true true));
    try reflexivity; [discriminate|repeat constructor].
Defined.

(** X10: pushing onto a ring without storage that already holds entries
    drops the oldest first: after the pushes the ring holds the last
    [capacity] entries of what it held followed by what was pushed, the
    pushes all return, and no file is touched. *)
Theorem push_all_evicts_oldest (es : list string) (hb : HistoryBuffer)
    (fs : gmap string File) :
  _file_path hb = None -> 0 < _buffer_size hb -> es <> [] ->
  push_all es hb fs =
  (Return tt,
   set_buffer (last_n (Z.to_nat (_buffer_size hb)) (_buffer hb ++ es)) hb,
   fs).
Proof.
  intros Hp Hc Hne. rewrite push_all_no_storage by exact Hp.
  destruct es as [|e es]; [contradiction|].
  rewrite fold_pushed_positive by exact Hc. reflexivity.
Qed.

Lemma push_all_evicts_oldest_witness :
  push_all ["c"; "d"] (mkHistoryBuffer None "," 3 ["a"; "b"]) ∅ =
  (Return tt, mkHistoryBuffer None "," 3 ["b"; "c"; "d"], ∅).
Proof.
  apply (push_all_evicts_oldest ["c"; "d"] (mkHistoryBuffer None "," 3 ["a"; "b"]) ∅);
    [reflexivity|reflexivity|discriminate].
Defined.

(** X11: a storage location without directory part cannot be written.  For a
    path that holds no slash, [os.path.dirname] is empty and [os.makedirs]
    refuses it: every push of a string without separator raises [OSError],
    no file is created, and the entry is in memory all the same. *)
Theorem push_needs_directory (path e : string) (hb : HistoryBuffer)
    (fs : gmap string File) :
  has_char slash path = false ->
  _file_path hb = Some path ->
  contains (_delimiter hb) e = false ->
  push (PStr e) hb fs = (Raise OSError, pushed e hb, fs).
Proof.
  intros Hs Hp Hc. rewrite push_unfold, Hp, Hc.
  destruct (pushed_no_storage e hb) as (Hp' & _).
  rewrite (flush_to_file_unfold e path) by congruence.
  unfold opening. rewrite (dirname_none path Hs). reflexivity.
Qed.

Lemma push_needs_directory_witness :
  push (PStr "a") (mkHistoryBuffer (Some "history.txt") "," 2 []) ∅ =
  (Raise OSError, mkHistoryBuffer (Some "history.txt") "," 2 ["a"], ∅).
Proof.
  apply (push_needs_directory "history.txt" "a"
           (mkHistoryBuffer (Some "history.txt") "," 2 []) ∅); reflexivity.
Defined.

End MoreRingLog.

(** ** The pattern *)

Module ReFacts.
Import Str MoreSpec Re StrFacts HistoryBufferFacts TextFacts.

Lemma lazy_body_spec (r m : string) :
  lazy_body r = Some m ->
  (exists body, m = body +:+ String rbrace EmptyString) /\ String.prefix m r = true.
Proof.
  revert m. induction r as [|c r IH]; intros m H; [discriminate|].
  cbn [lazy_body] in H.
  destruct (Ascii.eqb c rbrace && lookahead r) eqn:Hc.
  - injection H as <-. apply andb_true_iff in Hc as [Hc _].
    apply Ascii.eqb_eq in Hc as ->. split; [exists EmptyString; reflexivity|].
    apply prefix_cons. split; [reflexivity|]. destruct r; reflexivity.
  - destruct (lazy_body r) as [m'|]; [|discriminate]. injection H as <-.
    destruct (IH m' eq_refl) as ((body & ->) & Hpre).
    split; [exists (String c body); reflexivity|].
    apply prefix_cons. auto.
Qed.

Lemma contains_of_prefix (m s : string) : String.prefix m s = true -> contains m s = true.
Proof. intros H. destruct s; cbn [contains]; rewrite H; reflexivity. Qed.

Lemma findall_go_spec (k : nat) (s m : string) :
  In m (findall_go k s) ->
  (exists body, m = String lbrace (body +:+ String rbrace EmptyString)) /\
  contains m s = true.
Proof.
  revert k. induction s as [|c s IH]; intros k H; [contradiction|].
  assert (Hrest : forall k', In m (findall_go k' s) ->
            (exists body, m = String lbrace (body +:+ String rbrace EmptyString)) /\
            contains m (String c s) = true).
  { intros k' Hin. destruct (IH k' Hin) as [Hb Hc]. split; [exact Hb|].
    rewrite contains_cons, Hc. apply orb_true_r. }
  cbn [findall_go] in H. destruct k as [|k]; [|exact (Hrest _ H)].
  destruct (Ascii.eqb c lbrace) eqn:Hc; [|exact (Hrest _ H)].
  destruct (lazy_body s) as [m'|] eqn:Hl; [|exact (Hrest _ H)].
  destruct H as [<-|H]; [|exact (Hrest _ H)].
  apply Ascii.eqb_eq in Hc as ->.
  destruct (lazy_body_spec s m' Hl) as ((body & ->) & Hpre).
  split; [exists body; reflexivity|].
  apply contains_of_prefix, prefix_cons. auto.
Qed.

Lemma lstrip_go_has_char (c : ascii) (k : nat) (s : string) :
  has_char c s = false -> has_char c (Unicode.lstrip_go k s) = false.
Proof.
  revert k. induction s as [|a s IH]; intros k H; [reflexivity|].
  pose proof H as H'. cbn [has_char] in H'. apply orb_false_iff in H' as [_ Hs].
  cbn [Unicode.lstrip_go]. destruct k as [|k]; [|exact (IH k Hs)].
  destruct (Unicode.space_len (String a s)); [exact H|exact (IH _ Hs)].
Qed.

Lemma lookahead_inv (r : string) :
  lookahead r = true ->
  has_char lbrace r = true \/ r = EmptyString \/ r = String newline EmptyString.
Proof.
  unfold lookahead. intros H.
  apply orb_true_iff in H as [H|H]; [|right; right; apply String.eqb_eq, H].
  apply orb_true_iff in H as [H|H]; [|right; left; apply String.eqb_eq, H].
  left. destruct (has_char lbrace r) eqn:Hh; [reflexivity|].
  pose proof (lstrip_go_has_char lbrace 0 r Hh) as Hl. unfold Unicode.lstrip in H.
  destruct (Unicode.lstrip_go 0 r) as [|c t]; [discriminate|].
  cbn [has_char] in Hl. rewrite H in Hl. discriminate.
Qed.

Lemma lazy_body_flat (body : string) :
  has_char lbrace body = false ->
  lazy_body (body +:+ String rbrace EmptyString) = Some (body +:+ String rbrace EmptyString).
Proof.
  induction body as [|c body IH]; intros H; [reflexivity|].
  cbn [has_char] in H. apply orb_false_iff in H as [_ Hb].
  change (String c body +:+ String rbrace EmptyString)
    with (String c (body +:+ String rbrace EmptyString)).
  cbn [lazy_body].
  destruct (lookahead (body +:+ String rbrace EmptyString)) eqn:Hl.
  - exfalso. apply lookahead_inv in Hl as [Hl|[Hl|Hl]].
    + rewrite has_char_app, Hb in Hl. discriminate.
    + destruct body; discriminate.
    + destruct body as [|x [|y body]]; discriminate.
  - rewrite andb_false_r, (IH Hb). reflexivity.
Qed.

Lemma findall_go_skip_all (r : string) : findall_go (String.length r) r = [].
Proof. induction r as [|c r IH]; [reflexivity|exact IH]. Qed.

Lemma findall_flat (body : string) :
  has_char lbrace body = false ->
  findall (String lbrace (body +:+ String rbrace EmptyString)) =
  [String lbrace (body +:+ String rbrace EmptyString)].
Proof.
  intros H. unfold findall. cbn [findall_go].
  rewrite Ascii.eqb_refl, (lazy_body_flat body H), findall_go_skip_all. reflexivity.
Qed.

End ReFacts.

Section MorePattern.
Import Str MoreSpec Re ReFacts.

(** X12: every fragment that the pattern finds starts with an opening brace,
    ends with a closing brace, and is a piece of the reply as it stands,
    nothing added and nothing left out in between. *)
Theorem findall_fragments_are_braced (s m : string) :
  In m (findall s) ->
  (exists body, m = String lbrace (body +:+ String rbrace EmptyString)) /\
  contains m s = true.
Proof. apply findall_go_spec. Qed.

Lemma findall_fragments_are_braced_witness :
  (exists body, "{b}" = String lbrace (body +:+ String rbrace EmptyString)) /\
  contains "{b}" "x {a} {b}" = true.
Proof.
  apply (findall_fragments_are_braced "x {a} {b}" "{b}"). right. left. reflexivity.
Defined.

(** X13: a reply that is one pair of braces around a text without opening
    brace is found whole, as the only fragment. *)
Theorem findall_flat_object (body : string) :
  has_char lbrace body = false ->
  findall (String lbrace (body +:+ String rbrace EmptyString)) =
  [String lbrace (body +:+ String rbrace EmptyString)].
Proof. apply findall_flat. Qed.

Lemma findall_flat_object_witness : findall "{a}b}" = ["{a}b}"].
Proof. apply (findall_flat_object "a}b"). reflexivity. Defined.

End MorePattern.

(** ** The translator: results, history and failures *)

Section MoreTranslatorFacts.
Import RingSpec MoreSpec TranslatorSpec HistoryBufferFacts MoreRingFacts.

Lemma collect_inv (matched_jsons acc out : list string) :
  collect matched_jsons acc = Some out ->
  exists texts, Forall2 field_text matched_jsons texts /\ out = acc ++ texts.
Proof.
  revert acc. induction matched_jsons as [|js rest IH]; intros acc H.
  - injection H as <-. exists []. split; [constructor|]. rewrite app_nil_r. reflexivity.
  - cbn [collect] in H.
    destruct (Json.loads js) as [[| | | | |pairs]|] eqn:Hl; try discriminate.
    destruct (Json.dict_get "translated_text" pairs) as [[| | |text| |]|] eqn:Hg;
      try discriminate.
    destruct (IH _ H) as (texts & Hall & ->).
    exists (text :: texts). split; [|rewrite <- app_assoc; reflexivity].
    constructor; [exists pairs; auto|exact Hall].
Qed.

Lemma extract_cases (target answer : string) :
  extract target answer = target \/
  exists texts,
    Forall2 field_text (Re.findall answer) texts /\
    extract target answer = Str.join (String newline EmptyString) texts.
Proof.
  unfold extract. destruct (collect (Re.findall answer) []) as [out|] eqn:Hc; [|left; reflexivity].
  right. destruct (collect_inv _ _ _ Hc) as (texts & Hall & ->). exists texts. auto.
Qed.

(** A [translate] that returns: the collaborator answered with a text, and
    the push of the text of the result returned. *)
Lemma translate_return_inv (repr : string -> string) (system_message : Message)
    (target il ol : string) (flag : bool) (self self' : Translator)
    (fs fs' : gmap string File) (r : Result) :
  translate repr system_message target il ol flag self fs = (Return r, self', fs') ->
  exists text,
    answer_of repr system_message target il ol flag self fs = Return (PStr text) /\
    r = mkResult target (extract target text) /\
    HistoryBuffer.push (PStr (str_result repr r)) (history_buffer self) fs =
      (Return tt, history_buffer self', fs') /\
    chat_model self' = chat_model self.
Proof.
  rewrite translate_unfold.
  destruct (answer_of _ _ _ _ _ _ _ _) as [[| |text|]|e]; try discriminate.
  cbv zeta.
  destruct (HistoryBuffer.push _ _ _) as [[[[]|e] hb] fs''] eqn:Hpush; [|discriminate].
  intros [= <- <- <-]. exists text. auto.
Qed.

(** A [translate] that raises: the collaborator raised, or its content was
    no text, or the push raised. *)
Lemma translate_raise_inv (repr : string -> string) (system_message : Message)
    (target il ol : string) (flag : bool) (self self' : Translator)
    (fs fs' : gmap string File) (e : exn) :
  translate repr system_message target il ol flag self fs = (Raise e, self', fs') ->
  match answer_of repr system_message target il ol flag self fs with
  | Raise e' => e = e' /\ self' = self /\ fs' = fs
  | Return (PStr text) =>
      HistoryBuffer.push
        (PStr (str_result repr (mkResult target (extract target text))))
        (history_buffer self) fs = (Raise e, history_buffer self', fs') /\
      chat_model self' = chat_model self
  | Return _ => e = TypeError /\ self' = self /\ fs' = fs
  end.
Proof.
  rewrite translate_unfold.
  destruct (answer_of _ _ _ _ _ _ _ _) as [[| |text|]|e']; try (intros [= <- <- <-]; auto).
  cbv zeta.
  destruct (HistoryBuffer.push _ _ _) as [[[[]|e''] hb] fs''] eqn:Hpush; [discriminate|].
  intros [= <- <- <-]. auto.
Qed.

End MoreTranslatorFacts.

Section MoreTranslator.
Import RingSpec MoreSpec TranslatorSpec HistoryBufferFacts MoreRingFacts ReFacts.

Variable repr : string -> string.
Variable system_message : Message.

(** X14: [translate] gives all the fragments or none.  The translated text
    it returns is either the input text, or the texts of all the fragments
    found in the reply, every one of them decoded, joined by newlines; it is
    never built from some of the fragments only. *)
Theorem translate_all_or_nothing (target il ol : string) (flag : bool)
    (self self' : Translator) (fs fs' : gmap string File) (r : Result) :
  translate repr system_message target il ol flag self fs = (Return r, self', fs') ->
  original_text r = target /\
  (translated_text r = target \/
   exists texts,
     Forall2 field_text
       (Re.findall (reply repr system_message target il ol flag self fs)) texts /\
     translated_text r = Str.join (String newline EmptyString) texts).
Proof.
  intros H. apply translate_result in H. subst r. cbn [original_text translated_text].
  split; [reflexivity|apply extract_cases].
Qed.

(** X15: when a fragment found in the reply does not decode to an object
    with a string [translated_text], [translate] falls back to the input
    text, whatever the other fragments hold. *)
Theorem translate_falls_back (target il ol : string) (flag : bool)
    (self self' : Translator) (fs fs' : gmap string File) (r : Result) :
  translate repr system_message target il ol flag self fs = (Return r, self', fs') ->
  Exists bad_fragment (Re.findall (reply repr system_message target il ol flag self fs)) ->
  translated_text r = target.
Proof.
  intros H Hbad. apply translate_result in H. subst r. cbn [translated_text].
  apply extract_falls_back, Hbad.
Qed.

(** X16: a reply that is one pair of braces around a text without opening
    brace, and that decodes to an object with a string [translated_text],
    is translated to that string. *)
Theorem translate_flat_object (target il ol body text : string) (flag : bool)
    (self self' : Translator) (fs fs' : gmap string File) (r : Result) :
  translate repr system_message target il ol flag self fs = (Return r, self', fs') ->
  reply repr system_message target il ol flag self fs =
    String Re.lbrace (body +:+ String Re.rbrace EmptyString) ->
  has_char Re.lbrace body = false ->
  field_text (String Re.lbrace (body +:+ String Re.rbrace EmptyString)) text ->
  translated_text r = text.
Proof.
  intros H Hreply Hflat Hfield. apply translate_result in H. subst r.
  cbn [translated_text]. rewrite Hreply.
  rewrite (extract_texts target _ [text]); [reflexivity|].
  rewrite (findall_flat body Hflat). constructor; [exact Hfield|constructor].
Qed.

(** X17: [translate] records what it returns.  When it returns, the history
    has been pushed the text of the result, in memory and, with storage, at
    the end of the log behind a separator; the chat model is the one it was,
    and without storage no file is touched. *)
Theorem translate_records_result (target il ol : string) (flag : bool)
    (self self' : Translator) (fs fs' : gmap string File) (r : Result) :
  translate repr system_message target il ol flag self fs = (Return r, self', fs') ->
  history_buffer self' = pushed (str_result repr r) (history_buffer self) /\
  chat_model self' = chat_model self /\
  fs' = match _file_path (history_buffer self) with
        | None => fs
        | Some path =>
            appended path (_delimiter (history_buffer self) +:+ str_result repr r) fs
        end.
Proof.
  intros H. apply translate_return_inv in H as (text & _ & _ & Hpush & Hcm).
  pose proof (push_state (PStr (str_result repr r)) (history_buffer self) fs) as Hst.
  rewrite Hpush in Hst. cbn in Hst.
  split; [exact Hst|]. split; [exact Hcm|].
  destruct (_file_path (history_buffer self)) as [path|] eqn:Hp.
  - apply (RoundTrip.push_storage_inv _ path) in Hpush as (_ & _ & _ & ->); [reflexivity|exact Hp].
  - rewrite push_unfold, Hp in Hpush. injection Hpush as _ <-. reflexivity.
Qed.

(** X18: when [translate] raises, what has been recorded tells where.  When
    the collaborator raises, [translate] raises the same exception; when its
    content is no text, [translate] raises [TypeError]; in both cases nothing
    is recorded, the translator and the files are as they were.  Otherwise
    the push raised, which takes a history with storage: the result is lost
    to the caller, but its text is in the in-memory history all the same;
    and when that text holds the separator the exception is [ValueError] and
    no file has changed. *)
Theorem translate_failure (target il ol : string) (flag : bool)
    (self self' : Translator) (fs fs' : gmap string File) (e : exn) :
  translate repr system_message target il ol flag self fs = (Raise e, self', fs') ->
  match answer_of repr system_message target il ol flag self fs with
  | Raise e' => e = e' /\ self' = self /\ fs' = fs
  | Return (PStr text) =>
      let result := mkResult target (extract target text) in
      (exists path, _file_path (history_buffer self) = Some path) /\
      history_buffer self' = pushed (str_result repr result) (history_buffer self) /\
      chat_model self' = chat_model self /\
      (Str.contains (_delimiter (history_buffer self)) (str_result repr result) = true ->
       e = ValueError /\ fs' = fs)
  | Return _ => e = TypeError /\ self' = self /\ fs' = fs
  end.
Proof.
  intros H. apply translate_raise_inv in H.
  destruct (answer_of _ _ _ _ _ _ _ _) as [[| |text|]|e']; try exact H.
  cbv zeta. destruct H as [Hpush Hcm].
  pose proof (push_state
                (PStr (str_result repr (mkResult target (extract target text))))
                (history_buffer self) fs) as Hst.
  rewrite Hpush in Hst. cbn in Hst.
  rewrite push_unfold in Hpush.
  destruct (_file_path (history_buffer self)) as [path|]; [|discriminate].
  split; [eauto|]. split; [exact Hst|]. split; [exact Hcm|].
  intros Hc. rewrite Hc in Hpush. injection Hpush as <- _ <-. auto.
Qed.

(** X19: without a history file [translate] fails only through its
    collaborator.  When the chat model answers with a text, [translate]
    returns the result computed from it, with the input text as
    [original_text], and touches no file; and when [translate] raises, the
    collaborator raised that exception or its content was no text, and
    nothing was recorded. *)
Theorem translate_without_storage (target il ol : string) (flag : bool)
    (self : Translator) (fs : gmap string File) :
  _file_path (history_buffer self) = None ->
  (forall answer,
     answer_of repr system_message target il ol flag self fs = Return (PStr answer) ->
     exists self',
       translate repr system_message target il ol flag self fs =
       (Return (mkResult target (extract target answer)), self', fs)) /\
  (forall e self' fs',
     translate repr system_message target il ol flag self fs = (Raise e, self', fs') ->
     self' = self /\ fs' = fs /\
     (answer_of repr system_message target il ol flag self fs = Raise e \/
      e = TypeError /\
      exists v, answer_of repr system_message target il ol flag self fs = Return v /\
                forall text, v <> PStr text)).
Proof.
  intros Hp. split.
  - intros answer Ha. apply translate_returns; assumption.
  - intros e self' fs' H. apply translate_raise_inv in H.
    destruct (answer_of _ _ _ _ _ _ _ _) as [[| |text|]|e'] eqn:Ha.
    + destruct H as (-> & -> & ->). split; [reflexivity|]. split; [reflexivity|].
      right. split; [reflexivity|]. eexists. split; [reflexivity|discriminate].
    + destruct H as (-> & -> & ->). split; [reflexivity|]. split; [reflexivity|].
      right. split; [reflexivity|]. eexists. split; [reflexivity|discriminate].
    + destruct H as [Hpush _]. rewrite push_unfold, Hp in Hpush. discriminate.
    + destruct H as (-> & -> & ->). split; [reflexivity|]. split; [reflexivity|].
      right. split; [reflexivity|]. eexists. split; [reflexivity|discriminate].
    + destruct H as (-> & -> & ->). auto.
Qed.

(** X20: [Translator(chat_model, n, path)] is built exactly when [n] is an
    integer that is not negative and [path] is absent or a string; its
    history then has capacity [n], the location [path] and the default
    separator, and its chat model is the one given. *)
Theorem Translator_built_exactly_when (model : list Message -> outcome pyval)
    (n path : pyval)
    (fs : gmap string File) :
  ((exists t, Translator_init model n path fs = Return t) <->
   valid_buffer_size n && valid_file_path path = true) /\
  (forall t, Translator_init model n path fs = Return t ->
     chat_model t = model /\
     PInt (_buffer_size (history_buffer t)) = n /\
     _delimiter (history_buffer t) = default_delimiter /\
     match _file_path (history_buffer t) with
     | Some p => PStr p
     | None => PNone
     end = path).
Proof.
  unfold Translator_init. split; [split|].
  - intros [t H].
    destruct (HistoryBuffer.init n path (PStr default_delimiter) fs) as [hb|] eqn:Hi;
      [|discriminate].
    destruct (init_inv _ _ _ _ _ Hi) as (c & p & d & -> & Hc & _ & _ & -> & _).
    cbn. destruct (Z.leb_spec 0 c); [|lia]. destruct p; reflexivity.
  - intros H. apply andb_true_iff in H as [Hn Hp].
    destruct n as [|c| |]; try discriminate. cbn in Hn. apply Z.leb_le in Hn.
    destruct path as [| |p|]; try discriminate.
    + rewrite (init_unfold c None default_delimiter fs Hn) by (cbn; lia). eauto.
    + rewrite (init_unfold c (Some p) default_delimiter fs Hn) by (cbn; lia). eauto.
  - intros t H.
    destruct (HistoryBuffer.init n path (PStr default_delimiter) fs) as [hb|] eqn:Hi;
      [|discriminate].
    injection H as <-. cbn [chat_model history_buffer].
    destruct (init_inv _ _ _ _ _ Hi) as (c & p & d & -> & _ & [= <-] & _ & -> & -> & -> & -> & _).
    auto.
Qed.

End MoreTranslator.

Section MoreTranslatorRuns.
Import RingSpec MoreSpec TranslatorSpec.

Lemma translate_all_or_nothing_witness :
  original_text (mkResult "hello" "bonjour") = "hello" /\
  (translated_text (mkResult "hello" "bonjour") = "hello" \/
   exists texts,
     Forall2 field_text
       (Re.findall (reply quoted (SystemMessage "") "hello" "en" "fr" true
                      (answering bonjour_reply) ∅)) texts /\
     translated_text (mkResult "hello" "bonjour") =
     Str.join (String newline EmptyString) texts).
Proof.
  assert (Hrun : translate quoted (SystemMessage "") "hello" "en" "fr" true
                   (answering bonjour_reply) ∅ =
                 (Return (mkResult "hello" "bonjour"),
                  mkTranslator (fun _ => Return (PStr bonjour_reply))
                    (mkHistoryBuffer None default_delimiter default_buffer_size
                       ["{'original_text': 'hello', 'translated_text': 'bonjour'}"]),
                  ∅)) by reflexivity.
  exact (translate_all_or_nothing quoted (SystemMessage "") "hello" "en" "fr" true
           _ _ ∅ ∅ _ Hrun).
Defined.

Lemma translate_falls_back_witness :
  translated_text (mkResult "hello" "hello") = "hello".
Proof.
  assert (Hrun : translate quoted (SystemMessage "") "hello" "en" "fr" true
                   (answering ("{a} " +:+ bonjour_reply)) ∅ =
                 (Return (mkResult "hello" "hello"),
                  mkTranslator (fun _ => Return (PStr ("{a} " +:+ bonjour_reply)))
                    (mkHistoryBuffer None default_delimiter default_buffer_size
                       ["{'original_text': 'hello', 'translated_text': 'hello'}"]),
                  ∅)) by (vm_compute; reflexivity).
  assert (Hbad : Exists bad_fragment
            (Re.findall (reply quoted (SystemMessage "") "hello" "en" "fr" true
                           (answering ("{a} " +:+ bonjour_reply)) ∅))).
  { replace (Re.findall _) with ["{a}"; bonjour_reply] by (vm_compute; reflexivity).
    apply Exists_cons_hd. intros text (pairs & Hl & _). vm_compute in Hl. discriminate Hl. }
  exact (translate_falls_back quoted (SystemMessage "") "hello" "en" "fr" true
           _ _ ∅ ∅ _ Hrun Hbad).
Defined.

Lemma translate_flat_object_witness :
  translated_text (mkResult "hello" "bonjour") = "bonjour".
Proof.
  assert (Hrun : translate quoted (SystemMessage "") "hello" "en" "fr" true
                   (answering bonjour_reply) ∅ =
                 (Return (mkResult "hello" "bonjour"),
                  mkTranslator (fun _ => Return (PStr bonjour_reply))
                    (mkHistoryBuffer None default_delimiter default_buffer_size
                       ["{'original_text': 'hello', 'translated_text': 'bonjour'}"]),
                  ∅)) by reflexivity.
  apply (translate_flat_object quoted (SystemMessage "") "hello" "en" "fr" bonjour_body
           "bonjour" true _ _ ∅ ∅ _ Hrun); [reflexivity|reflexivity|].
  exists [("translated_text", JString "bonjour")]. split; reflexivity.
Defined.

Lemma translate_records_result_witness :
  exists self' fs',
    translate quoted (SystemMessage "") "hello" "en" "fr" true
      (answering_logged bonjour_reply "d/h") ∅ =
    (Return (mkResult "hello" "bonjour"), self', fs') /\
    _buffer (history_buffer self') =
      ["{'original_text': 'hello', 'translated_text': 'bonjour'}"] /\
    text_at "d/h" fs' =
      default_delimiter +:+ "{'original_text': 'hello', 'translated_text': 'bonjour'}".
Proof.
  assert (Hrun : translate quoted (SystemMessage "") "hello" "en" "fr" true
                   (answering_logged bonjour_reply "d/h") ∅ =
                 (Return (mkResult "hello" "bonjour"),
                  mkTranslator (fun _ => Return (PStr bonjour_reply))
                    (mkHistoryBuffer (Some "d/h") default_delimiter default_buffer_size
                       ["{'original_text': 'hello', 'translated_text': 'bonjour'}"]),
                  <["d/h" := mkFile
                       (default_delimiter +:+
                        "{'original_text': 'hello', 'translated_text': 'bonjour'}")
                       true true]> ∅)) by reflexivity.
  destruct (translate_records_result quoted (SystemMessage "") "hello" "en" "fr" true
              _ _ ∅ _ _ Hrun) as (Hh & _ & Hf).
  do 2 eexists. split; [exact Hrun|]. split; [rewrite Hh; reflexivity|reflexivity].
Defined.

Lemma translate_failure_witness :
  exists self',
    translate quoted (SystemMessage "") "hello" "en" "fr" true
      (answering_logged bonjour_reply "history.txt") ∅ = (Raise OSError, self', ∅) /\
    _buffer (history_buffer self') =
      ["{'original_text': 'hello', 'translated_text': 'bonjour'}"].
Proof.
  assert (Hrun : translate quoted (SystemMessage "") "hello" "en" "fr" true
                   (answering_logged bonjour_reply "history.txt") ∅ =
                 (Raise OSError,
                  mkTranslator (fun _ => Return (PStr bonjour_reply))
                    (mkHistoryBuffer (Some "history.txt") default_delimiter
                       default_buffer_size
                       ["{'original_text': 'hello', 'translated_text': 'bonjour'}"]),
                  ∅)) by reflexivity.
  pose proof (translate_failure quoted (SystemMessage "") "hello" "en" "fr" true
                _ _ ∅ _ _ Hrun) as H.
  change (answer_of quoted (SystemMessage "") "hello" "en" "fr" true
            (answering_logged bonjour_reply "history.txt") ∅)
    with (@Return pyval (PStr bonjour_reply)) in H.
  cbv zeta in H. destruct H as (_ & Hh & _).
  eexists. split; [exact Hrun|]. rewrite Hh. reflexivity.
Defined.

Lemma translate_without_storage_witness :
  exists self',
    translate quoted (SystemMessage "") "hello" "en" "fr" false (answering "hello") ∅ =
    (Return (mkResult "hello" (extract "hello" "hello")), self', ∅).
Proof.
  destruct (translate_without_storage quoted (SystemMessage "") "hello" "en" "fr" false
              (answering "hello") ∅ eq_refl) as [Hret _].
  exact (Hret "hello" eq_refl).
Defined.

End MoreTranslatorRuns.
